(** * Ownership and allocation accounting of the family investment tracker

    A shallow embedding of [src/lib/calculations.ts] and the properties of
    it that the specification states.

    Numbers.  The ledger holds JavaScript numbers read from DECIMAL columns.
    They are modelled by exact rationals [Q], compared with [==]; sums,
    differences and products of rationals are rationals.  A quotient is the
    one place where the source can leave the finite numbers (x/0 is NaN or
    an infinity), so a quotient has the type [Js.number], which keeps those
    three values apart from the finite ones.  Rounding and overflow of the
    64-bit floats are outside the model.

    Maps.  A JavaScript [Map] keeps its keys in the order of their first
    insertion and [forEach] visits them in that order; it is modelled by an
    association list without repeated keys ([Js.set] overwrites in place).

    Failures.  Reading a property of [undefined] throws a [TypeError]; the
    functions that can do so return a [Js.completion].

    [calculateOwnershipPercentages], which none of the properties below
    concerns, is left out. *)

From Stdlib Require Import QArith Qfield Lqa List String Bool Lia Setoid Morphisms.
From Stdlib Require Import Permutation.
Import ListNotations.
Open Scope Q_scope.

(* ================================================================== *)
(** ** The JavaScript values the engine uses *)

Module Js.

(** Result of a division: a finite number, or one of the three
    non-finite values of a JavaScript number. *)
Inductive number : Type :=
| Fin (q : Q)
| PosInfinity
| NegInfinity
| NaN.

(** [x > 0] on finite numbers. *)
Definition gt0 (x : Q) : bool := negb (Qle_bool x 0).

(** [a / b]. *)
Definition div (a b : Q) : number :=
  if Qeq_bool b 0 then
    if Qeq_bool a 0 then NaN
    else if gt0 a then PosInfinity else NegInfinity
  else Fin (a / b).

(** [n * k] for a finite [k]. *)
Definition times (n : number) (k : Q) : number :=
  match n with
  | Fin q => Fin (q * k)
  | NaN => NaN
  | PosInfinity =>
      if Qeq_bool k 0 then NaN else if gt0 k then PosInfinity else NegInfinity
  | NegInfinity =>
      if Qeq_bool k 0 then NaN else if gt0 k then NegInfinity else PosInfinity
  end.

(** [k * n] for a finite [k]. *)
Definition timesl (k : Q) (n : number) : number := times n k.

(** [n] is the finite number [q]. *)
Definition equals (n : number) (q : Q) : Prop :=
  match n with Fin x => x == q | _ => False end.

(** [n] is finite. *)
Definition finite (n : number) : bool :=
  match n with Fin _ => true | _ => false end.

(** [x || 0] where [x] is a number, [undefined] or [null]: the falsy
    values are [undefined], [null] and zero. *)
Definition orZero (x : option Q) : Q :=
  match x with
  | Some q => if Qeq_bool q 0 then 0 else q
  | None => 0
  end.

(** What a call does: it returns a value or throws. *)
Inductive thrown : Type :=
| TypeError                                   (* property read on undefined *)
| ReferenceNotFound (kind : string) (id : string).
    (* the structured failure the specification names; no statement of
       the source constructs it *)

Inductive completion (A : Type) : Type :=
| Return (a : A)
| Throw (e : thrown).
Arguments Return {A} a.
Arguments Throw {A} e.

Definition bind {A B} (c : completion A) (k : A -> completion B) : completion B :=
  match c with
  | Return a => k a
  | Throw e => Throw e
  end.

(** [xs.forEach(f)] where [f] updates a state and may throw. *)
Fixpoint forEach {A S} (f : S -> A -> completion S) (xs : list A) (s : S)
  : completion S :=
  match xs with
  | [] => Return s
  | x :: r => bind (f s x) (forEach f r)
  end.

(** [xs.map(f)] where [f] also updates a variable it captures and may
    throw. *)
Fixpoint mapS {A B S} (f : S -> A -> completion (B * S)) (xs : list A) (s : S)
  : completion (list B * S) :=
  match xs with
  | [] => Return ([], s)
  | x :: r =>
      bind (f s x) (fun '(b, s1) =>
      bind (mapS f r s1) (fun '(bs, s2) =>
      Return (b :: bs, s2)))
  end.

(** [xs.reduce((sum, x) => sum + f(x), 0)]. *)
Definition reduceSum {A} (f : A -> Q) (xs : list A) : Q :=
  fold_left (fun sum x => sum + f x) xs 0.

(** [new Set(xs)] and [s.has(x)]. *)
Definition Set_ := list string.
Definition Set_has (s : Set_) (x : string) : bool :=
  existsb (String.eqb x) s.

(** [Map<string, V>]. *)
Section Map.
Context {V : Type}.

Definition Map := list (string * V).

Fixpoint get (k : string) (m : Map) : option V :=
    match m with
    | [] => None
    | (k', v) :: r => if String.eqb k k' then Some v else get k r
    end.

Definition has (k : string) (m : Map) : bool :=
    match get k m with Some _ => true | None => false end.

Fixpoint set (k : string) (v : V) (m : Map) : Map :=
    match m with
    | [] => [(k, v)]
    | (k', v') :: r =>
        if String.eqb k k' then (k', v) :: r else (k', v') :: set k v r
    end.

Definition keys (m : Map) : list string := map fst m.
End Map.
Arguments Map V : clear implicits.

End Js.

Notation "x <- c ;; k" := (Js.bind c (fun x => k))
  (at level 61, c at next level, right associativity).
Notation "' p <- c ;; k" := (Js.bind c (fun p => k))
  (at level 61, p pattern, c at next level, right associativity).

(* ================================================================== *)
(** ** Database types (the fields the engine reads) *)

Module FamilyMember.
Record t := { id : string; name : string }.
End FamilyMember.

Module Contribution.
Record t := { id : string; member_id : string; amount : Q }.
End Contribution.

Module Stock.
Record t := { id : string; symbol : string; name : string;
              current_price : option Q (* number | null *) }.
End Stock.

Inductive TransactionType := buy | sell.

Definition isBuy (ty : TransactionType) : bool :=
  match ty with buy => true | sell => false end.
Definition isSell (ty : TransactionType) : bool :=
  match ty with buy => false | sell => true end.

Module Transaction.
Record t := { id : string; stock_id : string; type : TransactionType;
              quantity : Q; price_per_share : Q; total_amount : Q }.
End Transaction.

Module TransactionAllocation.
Record t := { id : string; transaction_id : string; member_id : string;
              amount : Q; percentage : Q }.
End TransactionAllocation.

Module MemberCashPool.
Record t := { member_id : string; member_name : string;
              total_contributions : Q; total_buys : Q; total_sells : Q;
              available_cash : Q }.
End MemberCashPool.

Record CalculationData := {
  members : list FamilyMember.t;
  contributions : list Contribution.t;
  stocks : list Stock.t;
  transactions : list Transaction.t;
  allocations : list TransactionAllocation.t
}.

(* ================================================================== *)
(** ** calculateMemberCash *)

(** The record that the body of [members.forEach] stores for [member]. *)
Definition memberCashPool (data : CalculationData) (member : FamilyMember.t)
  : MemberCashPool.t :=
  let totalContributions :=
    Js.reduceSum Contribution.amount
      (filter (fun c => String.eqb (Contribution.member_id c)
                                   (FamilyMember.id member))
              (contributions data)) in
  let buyTransactionIds : Js.Set_ :=
    map Transaction.id
        (filter (fun t => isBuy (Transaction.type t)) (transactions data)) in
  let totalBuys :=
    Js.reduceSum TransactionAllocation.amount
      (filter (fun a =>
                 String.eqb (TransactionAllocation.member_id a)
                            (FamilyMember.id member)
                 && Js.Set_has buyTransactionIds
                      (TransactionAllocation.transaction_id a))
              (allocations data)) in
  let sellTransactionIds : Js.Set_ :=
    map Transaction.id
        (filter (fun t => isSell (Transaction.type t)) (transactions data)) in
  let totalSells :=
    Js.reduceSum TransactionAllocation.amount
      (filter (fun a =>
                 String.eqb (TransactionAllocation.member_id a)
                            (FamilyMember.id member)
                 && Js.Set_has sellTransactionIds
                      (TransactionAllocation.transaction_id a))
              (allocations data)) in
  {| MemberCashPool.member_id := FamilyMember.id member;
     MemberCashPool.member_name := FamilyMember.name member;
     MemberCashPool.total_contributions := totalContributions;
     MemberCashPool.total_buys := totalBuys;
     MemberCashPool.total_sells := totalSells;
     MemberCashPool.available_cash :=
       totalContributions - totalBuys + totalSells |}.

Definition calculateMemberCash (data : CalculationData)
  : Js.Map MemberCashPool.t :=
  fold_left
    (fun cashMap member =>
       Js.set (FamilyMember.id member) (memberCashPool data member) cashMap)
    (members data) [].

(* ================================================================== *)
(** ** calculateMemberShares *)

(** memberId -> stockId -> number *)
Definition NestedMap := Js.Map (Js.Map Q).

(** The body of the inner [forEach]: one allocation of [transaction]. *)
Definition addAllocationShares (transaction : Transaction.t)
    (sharesMap : NestedMap) (allocation : TransactionAllocation.t)
  : Js.completion NestedMap :=
  match Js.get (TransactionAllocation.member_id allocation) sharesMap with
  | None => Js.Throw Js.TypeError     (* memberShares.get on undefined *)
  | Some memberShares =>
      let currentShares :=
        Js.orZero (Js.get (Transaction.stock_id transaction) memberShares) in
      let sharesForAllocation :=
        Transaction.quantity transaction
        * TransactionAllocation.percentage allocation in
      let updated :=
        match Transaction.type transaction with
        | buy => currentShares + sharesForAllocation
        | sell => currentShares - sharesForAllocation
        end in
      (* memberShares is the Map object stored in sharesMap: it is updated
         in place *)
      Js.Return
        (Js.set (TransactionAllocation.member_id allocation)
                (Js.set (Transaction.stock_id transaction) updated memberShares)
                sharesMap)
  end.

Definition calculateMemberShares (data : CalculationData)
  : Js.completion NestedMap :=
  let sharesMap : NestedMap :=
    fold_left (fun sharesMap member =>
                 Js.set (FamilyMember.id member) [] sharesMap)
              (members data) [] in
  Js.forEach
    (fun sharesMap transaction =>
       let transactionAllocations :=
         filter (fun a => String.eqb (TransactionAllocation.transaction_id a)
                                     (Transaction.id transaction))
                (allocations data) in
       Js.forEach (addAllocationShares transaction)
                  transactionAllocations sharesMap)
    (transactions data) sharesMap.

(* ================================================================== *)
(** ** calculateCostBasis *)

(** The body of the [forEach]: one allocation. *)
Definition addAllocationCost (data : CalculationData)
    (costBasisMap : NestedMap) (allocation : TransactionAllocation.t)
  : Js.completion NestedMap :=
  match find (fun t => String.eqb (Transaction.id t)
                         (TransactionAllocation.transaction_id allocation))
             (transactions data) with
  | None => Js.Return costBasisMap                  (* if (!transaction) return *)
  | Some transaction =>
      let costBasisMap :=
        if negb (Js.has (TransactionAllocation.member_id allocation) costBasisMap)
        then Js.set (TransactionAllocation.member_id allocation) [] costBasisMap
        else costBasisMap in
      match Js.get (TransactionAllocation.member_id allocation) costBasisMap with
      | None => Js.Throw Js.TypeError
      | Some memberCostBasis =>
          let currentCostBasis :=
            Js.orZero (Js.get (Transaction.stock_id transaction) memberCostBasis) in
          let updated :=
            match Transaction.type transaction with
            | buy => currentCostBasis + TransactionAllocation.amount allocation
            | sell => currentCostBasis - TransactionAllocation.amount allocation
            end in
          Js.Return
            (Js.set (TransactionAllocation.member_id allocation)
                    (Js.set (Transaction.stock_id transaction) updated
                            memberCostBasis)
                    costBasisMap)
      end
  end.

Definition calculateCostBasis (data : CalculationData)
  : Js.completion NestedMap :=
  Js.forEach (addAllocationCost data) (allocations data) [].

(* ================================================================== *)
(** ** calculatePortfolioSummary *)

Module MemberPortfolioSummary.
Record t := {
  memberId : string;
  memberName : string;
  totalContributions : Q;
  currentStockValue : Q;
  availableCash : Q;
  totalValue : Q;
  costBasis : Q;
  gainLoss : Q;
  gainLossPercentage : Js.number;
  ownershipPercentage : Js.number
}.

(** [member.ownershipPercentage = p] *)
Definition setOwnershipPercentage (p : Js.number) (m : t) : t :=
  {| memberId := memberId m;
     memberName := memberName m;
     totalContributions := totalContributions m;
     currentStockValue := currentStockValue m;
     availableCash := availableCash m;
     totalValue := totalValue m;
     costBasis := costBasis m;
     gainLoss := gainLoss m;
     gainLossPercentage := gainLossPercentage m;
     ownershipPercentage := p |}.
End MemberPortfolioSummary.

Module PortfolioSummary.
Record t := {
  totalValue : Q;
  totalCostBasis : Q;
  totalGainLoss : Q;
  totalGainLossPercentage : Js.number;
  totalCash : Q;
  memberBreakdown : list MemberPortfolioSummary.t
}.
End PortfolioSummary.

(** The body of the loop over the stocks in the callback of
    [members.map]; its state is the pair
    (currentStockValue, memberTotalCostBasis).  [shares] is the result of
    [memberShares.get(member.id)!], read for the first time here. *)
Definition valueStock (shares : option (Js.Map Q))
    (memberCostBasisMap : Js.Map Q) (st : Q * Q) (stock : Stock.t)
  : Js.completion (Q * Q) :=
  let '(currentStockValue, memberTotalCostBasis) := st in
  match shares with
  | None => Js.Throw Js.TypeError
  | Some shares =>
      let sharesOwned := Js.orZero (Js.get (Stock.id stock) shares) in
      let price := Js.orZero (Stock.current_price stock) in
      Js.Return
        (currentStockValue + sharesOwned * price,
         memberTotalCostBasis
         + Js.orZero (Js.get (Stock.id stock) memberCostBasisMap))
  end.

Definition valueStocks (shares : option (Js.Map Q))
    (memberCostBasisMap : Js.Map Q) (stocks : list Stock.t)
  : Js.completion (Q * Q) :=
  Js.forEach (valueStock shares memberCostBasisMap) stocks (0, 0).

(** The callback of [members.map]; [totalCash] is the variable of the
    enclosing function that it updates. *)
Definition summarizeMember (data : CalculationData)
    (memberCash : Js.Map MemberCashPool.t) (memberShares costBasis : NestedMap)
    (totalCash : Q) (member : FamilyMember.t)
  : Js.completion (MemberPortfolioSummary.t * Q) :=
  let cash := Js.get (FamilyMember.id member) memberCash in
  let shares := Js.get (FamilyMember.id member) memberShares in
  let memberCostBasisMap :=
    match Js.get (FamilyMember.id member) costBasis with
    | Some m => m
    | None => []
    end in
  '(currentStockValue, memberTotalCostBasis) <-
     valueStocks shares memberCostBasisMap (stocks data) ;;
  match cash with
  | None => Js.Throw Js.TypeError
  | Some cash =>
      let totalValue := currentStockValue + MemberCashPool.available_cash cash in
      let gainLoss := currentStockValue - memberTotalCostBasis in
      let gainLossPercentage :=
        if Js.gt0 memberTotalCostBasis
        then Js.times (Js.div gainLoss memberTotalCostBasis) 100
        else Js.Fin 0 in
      Js.Return
        ({| MemberPortfolioSummary.memberId := FamilyMember.id member;
            MemberPortfolioSummary.memberName := FamilyMember.name member;
            MemberPortfolioSummary.totalContributions :=
              MemberCashPool.total_contributions cash;
            MemberPortfolioSummary.currentStockValue := currentStockValue;
            MemberPortfolioSummary.availableCash :=
              MemberCashPool.available_cash cash;
            MemberPortfolioSummary.totalValue := totalValue;
            MemberPortfolioSummary.costBasis := memberTotalCostBasis;
            MemberPortfolioSummary.gainLoss := gainLoss;
            MemberPortfolioSummary.gainLossPercentage := gainLossPercentage;
            MemberPortfolioSummary.ownershipPercentage := Js.Fin 0 |},
         totalCash + MemberCashPool.available_cash cash)
  end.

(** The statements after [members.map]: the totals, the ownership
    percentages and the returned record. *)
Definition totalsAndOwnership (memberBreakdown : list MemberPortfolioSummary.t)
    (totalCash : Q) : PortfolioSummary.t :=
  let totalValue :=
    Js.reduceSum MemberPortfolioSummary.totalValue memberBreakdown in
  let totalCostBasis :=
    Js.reduceSum MemberPortfolioSummary.costBasis memberBreakdown in
  let memberBreakdown :=
    map (fun member =>
           MemberPortfolioSummary.setOwnershipPercentage
             (if Js.gt0 totalValue
              then Js.times
                     (Js.div (MemberPortfolioSummary.totalValue member) totalValue)
                     100
              else Js.Fin 0)
             member)
        memberBreakdown in
  let totalGainLoss := totalValue - totalCash - totalCostBasis in
  {| PortfolioSummary.totalValue := totalValue;
     PortfolioSummary.totalCostBasis := totalCostBasis;
     PortfolioSummary.totalGainLoss := totalGainLoss;
     PortfolioSummary.totalGainLossPercentage :=
       if Js.gt0 totalCostBasis
       then Js.times (Js.div totalGainLoss totalCostBasis) 100
       else Js.Fin 0;
     PortfolioSummary.totalCash := totalCash;
     PortfolioSummary.memberBreakdown := memberBreakdown |}.

Definition calculatePortfolioSummary (data : CalculationData)
  : Js.completion PortfolioSummary.t :=
  let memberCash := calculateMemberCash data in
  memberShares <- calculateMemberShares data ;;
  costBasis <- calculateCostBasis data ;;
  '(memberBreakdown, totalCash) <-
     Js.mapS (summarizeMember data memberCash memberShares costBasis)
             (members data) 0 ;;
  Js.Return (totalsAndOwnership memberBreakdown totalCash).

(* ================================================================== *)
(** ** calculateStockWithOwnership *)

Module MemberOwnership.
Record t := {
  memberId : string;
  memberName : string;
  shares : Q;
  value : Q;
  percentage : Js.number
}.

(** [mo.percentage = p] *)
Definition setPercentage (p : Js.number) (mo : t) : t :=
  {| memberId := memberId mo;
     memberName := memberName mo;
     shares := shares mo;
     value := value mo;
     percentage := p |}.
End MemberOwnership.

Module StockWithOwnership.
Record t := {
  stock : Stock.t;                       (* ...stock *)
  sharesOwned : Q;
  currentValue : Q;
  costBasis : Q;
  gainLoss : Q;
  gainLossPercentage : Js.number;
  memberOwnership : list MemberOwnership.t
}.
End StockWithOwnership.

(** [map.get(memberId)?.get(stockId) || 0] *)
Definition nestedGetOrZero (map : NestedMap) (memberId stockId : string) : Q :=
  Js.orZero
    (match Js.get memberId map with
     | Some inner => Js.get stockId inner
     | None => None
     end).

(** The body of [members.forEach]; its state is the triple
    (totalShares, totalCostBasis, memberOwnership). *)
Definition addMemberOwnership (stock : Stock.t)
    (memberShares costBasis : NestedMap)
    (st : Q * Q * list MemberOwnership.t) (member : FamilyMember.t)
  : Q * Q * list MemberOwnership.t :=
  let '(totalShares, totalCostBasis, memberOwnership) := st in
  let shares :=
    nestedGetOrZero memberShares (FamilyMember.id member) (Stock.id stock) in
  let memberCostBasis :=
    nestedGetOrZero costBasis (FamilyMember.id member) (Stock.id stock) in
  let value := shares * Js.orZero (Stock.current_price stock) in
  if Js.gt0 shares then
    (totalShares + shares,
     totalCostBasis + memberCostBasis,
     memberOwnership ++
       [ {| MemberOwnership.memberId := FamilyMember.id member;
            MemberOwnership.memberName := FamilyMember.name member;
            MemberOwnership.shares := shares;
            MemberOwnership.value := value;
            MemberOwnership.percentage := Js.Fin 0 |} ])
  else st.

Definition calculateStockWithOwnership (stock : Stock.t) (data : CalculationData)
  : Js.completion StockWithOwnership.t :=
  memberShares <- calculateMemberShares data ;;
  costBasis <- calculateCostBasis data ;;
  let '(totalShares, totalCostBasis, memberOwnership) :=
    fold_left (addMemberOwnership stock memberShares costBasis)
              (members data) (0, 0, []) in
  let memberOwnership :=
    map (fun mo =>
           MemberOwnership.setPercentage
             (if Js.gt0 totalShares
              then Js.times (Js.div (MemberOwnership.shares mo) totalShares) 100
              else Js.Fin 0)
             mo)
        memberOwnership in
  let currentValue := totalShares * Js.orZero (Stock.current_price stock) in
  let gainLoss := currentValue - totalCostBasis in
  Js.Return
    {| StockWithOwnership.stock := stock;
       StockWithOwnership.sharesOwned := totalShares;
       StockWithOwnership.currentValue := currentValue;
       StockWithOwnership.costBasis := totalCostBasis;
       StockWithOwnership.gainLoss := gainLoss;
       StockWithOwnership.gainLossPercentage :=
         if Js.gt0 totalCostBasis
         then Js.times (Js.div gainLoss totalCostBasis) 100
         else Js.Fin 0;
       StockWithOwnership.memberOwnership := memberOwnership |}.

(* ================================================================== *)
(** ** calculateSellAllocations *)

Module SellAllocation.
Record t := { member_id : string; amount : Js.number; percentage : Js.number }.
End SellAllocation.

(** [stockMap.get(stockId) || 0] *)
Definition sharesOf (stockId : string) (stockMap : Js.Map Q) : Q :=
  Js.orZero (Js.get stockId stockMap).

Definition calculateSellAllocations (stockId : string)
    (quantity pricePerShare : Q) (data : CalculationData)
  : Js.completion (list SellAllocation.t) :=
  memberShares <- calculateMemberShares data ;;
  let allocations : list SellAllocation.t := [] in
  let totalShares :=
    fold_left (fun totalShares '(_, stockMap) =>
                 totalShares + sharesOf stockId stockMap)
              memberShares 0 in
  if Qeq_bool totalShares 0 then Js.Return allocations
  else
    let totalAmount := quantity * pricePerShare in
    Js.Return
      (fold_left
         (fun allocations '(memberId, stockMap) =>
            let shares := sharesOf stockId stockMap in
            if Js.gt0 shares then
              let percentage := Js.div shares totalShares in
              allocations ++
                [ {| SellAllocation.member_id := memberId;
                     SellAllocation.amount := Js.timesl totalAmount percentage;
                     SellAllocation.percentage := percentage |} ]
            else allocations)
         memberShares allocations).

(* ================================================================== *)
(** ** calculateOwnershipPercentages *)

(** memberId -> stockId -> percentage *)
Definition OwnershipMap := Js.Map (Js.Map Js.number).

(** The body of the inner [stockMap.forEach] for the member [memberId];
    the entry is the key [stockId] with its value [shares]. *)
Definition setOwnership (totalSharesPerStock : Js.Map Q) (memberId : string)
    (ownershipMap : OwnershipMap) (entry : string * Q)
  : Js.completion OwnershipMap :=
  let '(stockId, shares) := entry in
  let totalShares := Js.orZero (Js.get stockId totalSharesPerStock) in
  let percentage :=
    if Js.gt0 totalShares
    then Js.times (Js.div shares totalShares) 100
    else Js.Fin 0 in
  match Js.get memberId ownershipMap with
  | None => Js.Throw Js.TypeError        (* ownershipMap.get(memberId)!.set *)
  | Some inner =>
      Js.Return
        (Js.set memberId (Js.set stockId percentage inner) ownershipMap)
  end.

(** The body of [stocks.forEach]: the total of the members' shares of
    [stock]. *)
Definition setTotalShares (memberShares : NestedMap)
    (totalSharesPerStock : Js.Map Q) (stock : Stock.t) : Js.Map Q :=
  let totalShares :=
    fold_left (fun totalShares '(_, stockMap) =>
                 totalShares + Js.orZero (Js.get (Stock.id stock) stockMap))
              memberShares 0 in
  Js.set (Stock.id stock) totalShares totalSharesPerStock.

Definition calculateOwnershipPercentages (data : CalculationData)
  : Js.completion OwnershipMap :=
  memberShares <- calculateMemberShares data ;;
  let ownershipMap : OwnershipMap :=
    fold_left (fun ownershipMap '(memberId, _) =>
                 Js.set memberId [] ownershipMap)
              memberShares [] in
  let totalSharesPerStock : Js.Map Q :=
    fold_left (setTotalShares memberShares) (stocks data) [] in
  Js.forEach
    (fun ownershipMap '(memberId, stockMap) =>
       Js.forEach (setOwnership totalSharesPerStock memberId)
                  stockMap ownershipMap)
    memberShares ownershipMap.

(* ================================================================== *)
(** ** Vocabulary of the specification *)

(** The sum of a list of amounts. *)
Fixpoint Qsum (l : list Q) : Q :=
  match l with
  | [] => 0
  | x :: r => x + Qsum r
  end.

Definition memberIds (data : CalculationData) : list string :=
  map FamilyMember.id (members data).

(** The allocation names one of the member ids [K]. *)
Definition memberKnown (K : list string) (a : TransactionAllocation.t) : bool :=
  existsb (String.eqb (TransactionAllocation.member_id a)) K.

(** The allocations of transaction [t] all name a member of the snapshot. *)
Definition transactionResolved (data : CalculationData) (t : Transaction.t)
  : bool :=
  forallb (memberKnown (memberIds data))
    (filter (fun a => String.eqb (TransactionAllocation.transaction_id a)
                                 (Transaction.id t))
            (allocations data)).

(** Every allocation of a transaction of the snapshot names a member of
    the snapshot. *)
Definition memberRefsResolve (data : CalculationData) : bool :=
  forallb (transactionResolved data) (transactions data).

(** The sum of the member's contribution amounts. *)
Definition contributionsOf (data : CalculationData) (memberId : string) : Q :=
  Qsum (map Contribution.amount
            (filter (fun c => String.eqb (Contribution.member_id c) memberId)
                    (contributions data))).

(** The allocation is on a transaction of type [ty]. *)
Definition onTransactionOfType (data : CalculationData) (ty : TransactionType)
    (a : TransactionAllocation.t) : bool :=
  existsb (fun t => String.eqb (Transaction.id t)
                               (TransactionAllocation.transaction_id a)
                    && match ty with
                       | buy => isBuy (Transaction.type t)
                       | sell => isSell (Transaction.type t)
                       end)
          (transactions data).

(** The sum of the member's allocation amounts on transactions of type
    [ty]. *)
Definition allocatedOf (data : CalculationData) (ty : TransactionType)
    (memberId : string) : Q :=
  Qsum (map TransactionAllocation.amount
            (filter (fun a =>
                       String.eqb (TransactionAllocation.member_id a) memberId
                       && onTransactionOfType data ty a)
                    (allocations data))).

(** The allocation refers to a transaction of the snapshot. *)
Definition transactionResolves (data : CalculationData)
    (a : TransactionAllocation.t) : bool :=
  existsb (fun t => String.eqb (Transaction.id t)
                               (TransactionAllocation.transaction_id a))
          (transactions data).

(** The snapshot without the allocations whose transaction is missing. *)
Definition withoutDanglingAllocations (data : CalculationData)
  : CalculationData :=
  {| members := members data;
     contributions := contributions data;
     stocks := stocks data;
     transactions := transactions data;
     allocations := filter (transactionResolves data) (allocations data) |}.


(** The security has a known price. *)
Definition priceKnown (s : Stock.t) : bool :=
  match Stock.current_price s with Some _ => true | None => false end.

(** Σ over the securities with a known price of
    sharesOwned(member, security) × currentPrice(security). *)
Definition stockValueOf (data : CalculationData) (memberShares : NestedMap)
    (memberId : string) : Q :=
  Qsum (map (fun s => nestedGetOrZero memberShares memberId (Stock.id s)
                      * match Stock.current_price s with
                        | Some p => p
                        | None => 0
                        end)
            (filter priceKnown (stocks data))).

(** Σ over the securities of the member's cost basis. *)
Definition costBasisOf (data : CalculationData) (costBasis : NestedMap)
    (memberId : string) : Q :=
  Qsum (map (fun s => nestedGetOrZero costBasis memberId (Stock.id s))
            (stocks data)).

(** [row] is the entry of the member breakdown computed for [member],
    before the ownership percentages are filled in. *)
Definition isRowOf (data : CalculationData)
    (memberCash : Js.Map MemberCashPool.t) (memberShares costBasis : NestedMap)
    (member : FamilyMember.t) (row : MemberPortfolioSummary.t) : Prop :=
  MemberPortfolioSummary.memberId row = FamilyMember.id member
  /\ (exists cash,
        Js.get (FamilyMember.id member) memberCash = Some cash
        /\ MemberPortfolioSummary.availableCash row
           = MemberCashPool.available_cash cash
        /\ MemberPortfolioSummary.totalContributions row
           = MemberCashPool.total_contributions cash)
  /\ MemberPortfolioSummary.currentStockValue row
     == stockValueOf data memberShares (FamilyMember.id member)
  /\ MemberPortfolioSummary.costBasis row
     == costBasisOf data costBasis (FamilyMember.id member)
  /\ MemberPortfolioSummary.totalValue row
     = MemberPortfolioSummary.currentStockValue row
       + MemberPortfolioSummary.availableCash row
  /\ MemberPortfolioSummary.gainLoss row
     = MemberPortfolioSummary.currentStockValue row
       - MemberPortfolioSummary.costBasis row
  /\ MemberPortfolioSummary.gainLossPercentage row
     = (if Js.gt0 (MemberPortfolioSummary.costBasis row)
        then Js.times (Js.div (MemberPortfolioSummary.gainLoss row)
                              (MemberPortfolioSummary.costBasis row)) 100
        else Js.Fin 0).

(** The entry of the shares map holds a strictly positive number of shares
    of the security. *)
Definition holdsShares (stockId : string) (e : string * Js.Map Q) : bool :=
  Js.gt0 (sharesOf stockId (snd e)).

(** The allocation proposed to the holder [e] of the shares map. *)
Definition proposedAllocation (stockId : string) (totalAmount totalShares : Q)
    (e : string * Js.Map Q) : SellAllocation.t :=
  {| SellAllocation.member_id := fst e;
     SellAllocation.amount :=
       Js.timesl totalAmount (Js.div (sharesOf stockId (snd e)) totalShares);
     SellAllocation.percentage :=
       Js.div (sharesOf stockId (snd e)) totalShares |}.

(** The entry of the ownership breakdown of [stock] for [member], before
    the percentages are filled in. *)
Definition ownershipEntry (stock : Stock.t) (memberShares : NestedMap)
    (member : FamilyMember.t) : MemberOwnership.t :=
  let shares :=
    nestedGetOrZero memberShares (FamilyMember.id member) (Stock.id stock) in
  {| MemberOwnership.memberId := FamilyMember.id member;
     MemberOwnership.memberName := FamilyMember.name member;
     MemberOwnership.shares := shares;
     MemberOwnership.value := shares * Js.orZero (Stock.current_price stock);
     MemberOwnership.percentage := Js.Fin 0 |}.

(** The allocations of transaction [t]. *)
Definition allocationsOf (data : CalculationData) (t : Transaction.t)
  : list TransactionAllocation.t :=
  filter (fun a => String.eqb (TransactionAllocation.transaction_id a)
                              (Transaction.id t))
         (allocations data).

(** The shares that allocation [a] of transaction [t] gives to its member:
    quantity × percentage, taken away by a sale. *)
Definition signedShares (t : Transaction.t) (a : TransactionAllocation.t) : Q :=
  match Transaction.type t with
  | buy => Transaction.quantity t * TransactionAllocation.percentage a
  | sell => - (Transaction.quantity t * TransactionAllocation.percentage a)
  end.

(** The net share count of a member for a security, read off the ledger:
    over the transactions of the security, over the member's allocations
    of the transaction. *)
Definition netShares (data : CalculationData) (memberId stockId : string) : Q :=
  Qsum (map (fun t =>
               Qsum (map (signedShares t)
                         (filter (fun a =>
                                    String.eqb (TransactionAllocation.member_id a)
                                               memberId)
                                 (allocationsOf data t))))
            (filter (fun t => String.eqb (Transaction.stock_id t) stockId)
                    (transactions data))).

(** The transaction that [calculateCostBasis] finds for an allocation. *)
Definition transactionOf (data : CalculationData)
    (a : TransactionAllocation.t) : option Transaction.t :=
  find (fun t => String.eqb (Transaction.id t)
                            (TransactionAllocation.transaction_id a))
       (transactions data).

(** The amount that allocation [a] adds to the cost basis of the member
    for the security [stockId]. *)
Definition signedCost (data : CalculationData) (stockId : string)
    (a : TransactionAllocation.t) : Q :=
  match transactionOf data a with
  | Some t =>
      if String.eqb (Transaction.stock_id t) stockId then
        match Transaction.type t with
        | buy => TransactionAllocation.amount a
        | sell => - TransactionAllocation.amount a
        end
      else 0
  | None => 0
  end.

(** The net amount a member has invested in a security, read off the
    ledger. *)
Definition netCost (data : CalculationData) (memberId stockId : string) : Q :=
  Qsum (map (signedCost data stockId)
            (filter (fun a => String.eqb (TransactionAllocation.member_id a)
                                         memberId)
                    (allocations data))).

(** [map.get(memberId)?.get(stockId)] *)
Definition nestedGet {V} (map : Js.Map (Js.Map V)) (memberId stockId : string)
  : option V :=
  match Js.get memberId map with
  | Some inner => Js.get stockId inner
  | None => None
  end.

(** The quantity of the security bought minus the quantity sold. *)
Definition netQuantity (data : CalculationData) (stockId : string) : Q :=
  Qsum (map (fun t => match Transaction.type t with
                      | buy => Transaction.quantity t
                      | sell => - Transaction.quantity t
                      end)
            (filter (fun t => String.eqb (Transaction.stock_id t) stockId)
                    (transactions data))).

(** The snapshot with the transactions of one security only, as the page
    of a security fetches it. *)
Definition withTransactionsOf (stockId : string) (data : CalculationData)
  : CalculationData :=
  {| members := members data;
     contributions := contributions data;
     stocks := stocks data;
     transactions :=
       filter (fun t => String.eqb (Transaction.stock_id t) stockId)
              (transactions data);
     allocations := allocations data |}.

(** What one allocation [a] of transaction [t] does to the share count
    [v] recorded for member [k] and security [s] ([None]: no entry). *)
Definition shareUpdate (k s : string) (t : Transaction.t)
    (a : TransactionAllocation.t) (v : option Q) : option Q :=
  if String.eqb (TransactionAllocation.member_id a) k
     && String.eqb (Transaction.stock_id t) s
  then Some match Transaction.type t with
            | buy => Js.orZero v
                     + Transaction.quantity t
                       * TransactionAllocation.percentage a
            | sell => Js.orZero v
                      - Transaction.quantity t
                        * TransactionAllocation.percentage a
            end
  else v.

(** What one allocation [a] does to the cost basis [v] recorded for member
    [k] and security [s]. *)
Definition costUpdate (data : CalculationData) (k s : string)
    (a : TransactionAllocation.t) (v : option Q) : option Q :=
  match transactionOf data a with
  | Some t =>
      if String.eqb (TransactionAllocation.member_id a) k
         && String.eqb (Transaction.stock_id t) s
      then Some match Transaction.type t with
                | buy => Js.orZero v + TransactionAllocation.amount a
                | sell => Js.orZero v - TransactionAllocation.amount a
                end
      else v
  | None => v
  end.

(** The percentage that [calculateOwnershipPercentages] stores for
    [shares] of the security [stockId], given the table of totals. *)
Definition percentageOfTotal (totalSharesPerStock : Js.Map Q)
    (stockId : string) (shares : Q) : Js.number :=
  let totalShares := Js.orZero (Js.get stockId totalSharesPerStock) in
  if Js.gt0 totalShares
  then Js.times (Js.div shares totalShares) 100
  else Js.Fin 0.

(** The security is one of the securities of the snapshot. *)
Definition stockListed (data : CalculationData) (stockId : string) : bool :=
  existsb (fun st => String.eqb stockId (Stock.id st)) (stocks data).

(* ================================================================== *)
(** ** Example snapshots *)

Module Example.

Definition member (id : string) : FamilyMember.t :=
  {| FamilyMember.id := id; FamilyMember.name := id |}.

Definition contribution (id memberId : string) (amount : Q) : Contribution.t :=
  {| Contribution.id := id; Contribution.member_id := memberId;
     Contribution.amount := amount |}.

Definition stock (id : string) (price : option Q) : Stock.t :=
  {| Stock.id := id; Stock.symbol := id; Stock.name := id;
     Stock.current_price := price |}.

Definition transaction (id stockId : string) (ty : TransactionType)
    (quantity price : Q) : Transaction.t :=
  {| Transaction.id := id; Transaction.stock_id := stockId;
     Transaction.type := ty; Transaction.quantity := quantity;
     Transaction.price_per_share := price;
     Transaction.total_amount := quantity * price |}.

Definition allocation (id transactionId memberId : string)
    (amount percentage : Q) : TransactionAllocation.t :=
  {| TransactionAllocation.id := id;
     TransactionAllocation.transaction_id := transactionId;
     TransactionAllocation.member_id := memberId;
     TransactionAllocation.amount := amount;
     TransactionAllocation.percentage := percentage |}.

(** Two members contribute 1000 each; 10 shares of X are bought at 100 and
    allocated 600 / 400; X is now at 120. *)
Definition scenario : CalculationData :=
  {| members := [member "A"; member "B"];
     contributions := [contribution "c1" "A" 1000; contribution "c2" "B" 1000];
     stocks := [stock "X" (Some 120)];
     transactions := [transaction "t1" "X" buy 10 100];
     allocations := [allocation "a1" "t1" "A" 600 0.6;
                     allocation "a2" "t1" "B" 400 0.4] |}.

(** One member without contributions is allocated a purchase of 100 of a
    security that has no price: the member's cash, and the value of the
    whole portfolio, is -100. *)
Definition overdrawn : CalculationData :=
  {| members := [member "A"];
     contributions := [];
     stocks := [stock "X" None];
     transactions := [transaction "t1" "X" buy 1 100];
     allocations := [allocation "a1" "t1" "A" 100 1] |}.

(** A holds 10 shares of X; a sale of 5 shares is allocated to B, who
    never bought any: B's net share count is -5. *)
Definition shortSeller : CalculationData :=
  {| members := [member "A"; member "B"];
     contributions := [contribution "c1" "A" 1000];
     stocks := [stock "X" (Some 120)];
     transactions := [transaction "t1" "X" buy 10 100;
                      transaction "t2" "X" sell 5 120];
     allocations := [allocation "a1" "t1" "A" 1000 1;
                     allocation "a2" "t2" "B" 600 1] |}.

(** The scenario with one more allocation, on a transaction "t9" that
    does not exist. *)
Definition danglingTransaction : CalculationData :=
  {| members := members scenario;
     contributions := contributions scenario;
     stocks := stocks scenario;
     transactions := transactions scenario;
     allocations := allocations scenario
                    ++ [allocation "a3" "t9" "A" 50 0.5] |}.

(** The scenario with one more allocation of the purchase, to a member "Z"
    that does not exist. *)
Definition unknownMember : CalculationData :=
  {| members := members scenario;
     contributions := contributions scenario;
     stocks := stocks scenario;
     transactions := transactions scenario;
     allocations := allocations scenario
                    ++ [allocation "a3" "t1" "Z" 50 0.05] |}.

(** The scenario with one more purchase, of a security "Q" that does not
    exist, allocated to A. *)
Definition unknownSecurity : CalculationData :=
  {| members := members scenario;
     contributions := contributions scenario;
     stocks := stocks scenario;
     transactions := transactions scenario
                     ++ [transaction "t2" "Q" buy 1 50];
     allocations := allocations scenario
                    ++ [allocation "a3" "t2" "A" 50 1] |}.

(** The scenario with a third member who has no contribution and no
    allocation. *)
Definition withIdleMember : CalculationData :=
  {| members := members scenario ++ [member "C"];
     contributions := contributions scenario;
     stocks := stocks scenario;
     transactions := transactions scenario;
     allocations := allocations scenario |}.

End Example.

(* ================================================================== *)
(** * Properties *)

(** ** Numbers *)

Lemma gt0_true (x : Q) : Js.gt0 x = true <-> 0 < x.
Proof.
  unfold Js.gt0. rewrite negb_true_iff.
  split; intro H.
  - apply Qnot_le_lt. intro L. apply Qle_bool_iff in L. congruence.
  - destruct (Qle_bool x 0) eqn:E; [|reflexivity].
    apply Qle_bool_iff in E. exfalso. exact (Qlt_not_le _ _ H E).
Qed.

Lemma gt0_false (x : Q) : Js.gt0 x = false <-> x <= 0.
Proof.
  unfold Js.gt0. rewrite negb_false_iff. apply Qle_bool_iff.
Qed.

Lemma orZero_Some (q : Q) : Js.orZero (Some q) == q.
Proof.
  simpl. destruct (Qeq_bool q 0) eqn:E; [|reflexivity].
  symmetry. now apply Qeq_bool_iff.
Qed.

Lemma div_finite (a b : Q) : ~ b == 0 -> Js.div a b = Js.Fin (a / b).
Proof.
  intro H. unfold Js.div.
  destruct (Qeq_bool b 0) eqn:E; [|reflexivity].
  apply Qeq_bool_iff in E. contradiction.
Qed.

Lemma percent_finite (a b : Q) :
  ~ b == 0 -> Js.times (Js.div a b) 100 = Js.Fin (a / b * 100).
Proof. intro H. now rewrite div_finite. Qed.

(** A guarded quotient [d > 0 ? (a / d) * 100 : 0] is always finite. *)
Lemma guarded_percent_finite (a d : Q) :
  Js.finite (if Js.gt0 d then Js.times (Js.div a d) 100 else Js.Fin 0) = true.
Proof.
  destruct (Js.gt0 d) eqn:E; [|reflexivity].
  apply gt0_true in E. rewrite percent_finite; [reflexivity|].
  intro Z. rewrite Z in E. discriminate.
Qed.

(** ** Sums *)

Lemma fold_left_add {A} (f : A -> Q) (xs : list A) (a : Q) :
  fold_left (fun sum x => sum + f x) xs a == a + Qsum (map f xs).
Proof.
  revert a. induction xs as [|x xs IH]; intro a; simpl.
  - ring.
  - rewrite IH. ring.
Qed.

Lemma reduceSum_Qsum {A} (f : A -> Q) (xs : list A) :
  Js.reduceSum f xs == Qsum (map f xs).
Proof. unfold Js.reduceSum. rewrite fold_left_add. ring. Qed.

Lemma Qsum_app (l1 l2 : list Q) : Qsum (l1 ++ l2) == Qsum l1 + Qsum l2.
Proof.
  induction l1 as [|x l1 IH]; simpl.
  - ring.
  - rewrite IH. ring.
Qed.

Lemma Qsum_scale {A} (f : A -> Q) (k : Q) (xs : list A) :
  Qsum (map (fun x => f x * k) xs) == Qsum (map f xs) * k.
Proof.
  induction xs as [|x xs IH]; simpl.
  - ring.
  - rewrite IH. ring.
Qed.

Lemma Qsum_plus {A} (f g : A -> Q) (xs : list A) :
  Qsum (map (fun x => f x + g x) xs) == Qsum (map f xs) + Qsum (map g xs).
Proof.
  induction xs as [|x xs IH]; simpl.
  - ring.
  - rewrite IH. ring.
Qed.

Lemma Qsum_ext {A} (f g : A -> Q) (xs : list A) :
  (forall x, In x xs -> f x == g x) ->
  Qsum (map f xs) == Qsum (map g xs).
Proof.
  induction xs as [|x xs IH]; intro H; simpl.
  - reflexivity.
  - rewrite (H x (or_introl eq_refl)), IH; [reflexivity|].
    intros y Hy. apply H. now right.
Qed.


(** ** Maps *)

Section MapFacts.
Context {V : Type}.
Implicit Types (m : Js.Map V) (k : string) (v : V).

Lemma get_set_same k v m : Js.get k (Js.set k v m) = Some v.
Proof.
  induction m as [|[k' v'] m IH]; simpl.
  - now rewrite String.eqb_refl.
  - destruct (String.eqb k k') eqn:E; simpl; rewrite E; [reflexivity|exact IH].
Qed.

Lemma get_set_other k k' v m :
  k <> k' -> Js.get k (Js.set k' v m) = Js.get k m.
Proof.
  intro N. induction m as [|[k2 v2] m IH]; simpl.
  - apply String.eqb_neq in N. now rewrite N.
  - destruct (String.eqb k' k2) eqn:E; simpl.
    + apply String.eqb_eq in E. subst k2.
      apply String.eqb_neq in N. now rewrite N.
    + now rewrite IH.
Qed.

Lemma get_Some_In k m : (exists v, Js.get k m = Some v) <-> In k (Js.keys m).
Proof.
  induction m as [|[k' v'] m IH]; simpl.
  - split; [intros [v H]; discriminate | intros []].
  - destruct (String.eqb k k') eqn:E.
    + apply String.eqb_eq in E. subst. split; eauto.
    + apply String.eqb_neq in E. rewrite IH. split; [tauto|].
      intros [H|H]; [congruence|exact H].
Qed.

Lemma get_None_notIn k m : Js.get k m = None <-> ~ In k (Js.keys m).
Proof.
  rewrite <- get_Some_In. destruct (Js.get k m).
  - split; [discriminate|]. intro H. exfalso. apply H. eauto.
  - split; [|reflexivity]. intros _ [v H]. discriminate.
Qed.

Lemma keys_set_present k v m :
  In k (Js.keys m) -> Js.keys (Js.set k v m) = Js.keys m.
Proof.
  induction m as [|[k' v'] m IH]; simpl; [intros []|].
  intro H. destruct (String.eqb k k') eqn:E; simpl; [reflexivity|].
  f_equal. apply IH. destruct H as [H|H]; [|exact H].
  apply String.eqb_neq in E. congruence.
Qed.

Lemma keys_set_absent k v m :
  ~ In k (Js.keys m) -> Js.keys (Js.set k v m) = Js.keys m ++ [k].
Proof.
  induction m as [|[k' v'] m IH]; simpl; [reflexivity|].
  intro H. destruct (String.eqb k k') eqn:E; simpl.
  - apply String.eqb_eq in E. subst. tauto.
  - f_equal. apply IH. tauto.
Qed.

Lemma keys_set_In k k' v m :
  In k (Js.keys (Js.set k' v m)) <-> k = k' \/ In k (Js.keys m).
Proof.
  destruct (in_dec string_dec k' (Js.keys m)) as [H|H].
  - rewrite keys_set_present by exact H. split; [tauto|].
    intros [->|H']; assumption.
  - rewrite keys_set_absent by exact H. rewrite in_app_iff. simpl.
    split; [intros [?|[?|[]]]; auto | intros [?|?]; auto].
Qed.

Lemma keys_set_NoDup k v m : NoDup (Js.keys m) -> NoDup (Js.keys (Js.set k v m)).
Proof.
  intro N. destruct (in_dec string_dec k (Js.keys m)) as [H|H].
  - now rewrite keys_set_present.
  - rewrite keys_set_absent by exact H.
    apply NoDup_rev in N. rewrite <- (rev_involutive (_ ++ _)).
    apply NoDup_rev. rewrite rev_app_distr. simpl. constructor; [|exact N].
    now rewrite <- in_rev.
Qed.

Lemma In_get_NoDup k v m :
  NoDup (Js.keys m) -> In (k, v) m -> Js.get k m = Some v.
Proof.
  induction m as [|[k' v'] m IH]; simpl; [intros _ []|].
  intros N [H|H].
  - inversion H; subst. now rewrite String.eqb_refl.
  - inversion N as [|? ? Hn N']; subst.
    destruct (String.eqb k k') eqn:E.
    + apply String.eqb_eq in E. subst. exfalso. apply Hn.
      change k' with (fst (k', v)). now apply in_map.
    + now apply IH.
Qed.

End MapFacts.

(** ** Loops that may throw *)

Section ForEachFacts.
Context {A S : Type} (f : S -> A -> Js.completion S).

(** An invariant [P] of the state that every step keeps, on elements that
    satisfy [C], makes the whole loop return. *)
Lemma forEach_returns (P : S -> Prop) (C : A -> Prop) :
  (forall s x, P s -> C x -> exists s', f s x = Js.Return s' /\ P s') ->
  forall xs s, P s -> Forall C xs ->
  exists s', Js.forEach f xs s = Js.Return s' /\ P s'.
Proof.
  intros step xs. induction xs as [|x xs IH]; intros s Ps HC; simpl.
  - eauto.
  - inversion HC as [|? ? Cx HC']; subst.
    destruct (step s x Ps Cx) as [s1 [E P1]]. rewrite E. simpl.
    now apply IH.
Qed.

(** The first element on which the step throws ends the loop. *)
Lemma forEach_throws (P : S -> Prop) (C D : A -> Prop) (e : Js.thrown) :
  (forall s x, P s -> C x -> exists s', f s x = Js.Return s' /\ P s') ->
  (forall s x, P s -> D x -> f s x = Js.Throw e) ->
  forall xs s, P s -> Forall (fun x => C x \/ D x) xs -> Exists D xs ->
  Js.forEach f xs s = Js.Throw e.
Proof.
  intros step fail xs. induction xs as [|x xs IH]; intros s Ps HCD HD.
  - inversion HD.
  - inversion HCD as [|? ? [Cx|Dx] HCD']; subst; simpl.
    + destruct (step s x Ps Cx) as [s1 [E P1]]. rewrite E. simpl.
      inversion HD as [? ? Dx|? ? HD']; subst.
      * rewrite (fail s x Ps Dx) in E. discriminate.
      * now apply IH.
    + now rewrite (fail s x Ps Dx).
Qed.

(** Elements on which the step does nothing can be dropped. *)
Lemma forEach_filter (p : A -> bool) :
  (forall s x, p x = false -> f s x = Js.Return s) ->
  forall xs s, Js.forEach f (filter p xs) s = Js.forEach f xs s.
Proof.
  intros skip xs. induction xs as [|x xs IH]; intro s; simpl.
  - reflexivity.
  - destruct (p x) eqn:E; simpl.
    + destruct (f s x); simpl; [apply IH|reflexivity].
    + rewrite (skip s x E). simpl. apply IH.
Qed.

End ForEachFacts.

(** ** calculateMemberShares: when it returns and which keys it has *)

Lemma memberKnown_In K a :
  memberKnown K a = true <-> In (TransactionAllocation.member_id a) K.
Proof.
  unfold memberKnown. rewrite existsb_exists. split.
  - intros [k [H E]]. apply String.eqb_eq in E. now subst.
  - intro H. exists (TransactionAllocation.member_id a).
    split; [exact H|apply String.eqb_refl].
Qed.

Lemma initial_sharesMap_keys (ms : list FamilyMember.t) (acc : NestedMap) :
  let sm := fold_left (fun sharesMap member =>
                         Js.set (FamilyMember.id member) [] sharesMap) ms acc in
  (NoDup (Js.keys acc) -> NoDup (Js.keys sm)) /\
  (forall k, In k (Js.keys sm) <->
             In k (Js.keys acc) \/ In k (map FamilyMember.id ms)).
Proof.
  revert acc. induction ms as [|m ms IH]; intro acc; simpl.
  - split; [auto|]. intro k. tauto.
  - destruct (IH (Js.set (FamilyMember.id m) [] acc)) as [N I]. split.
    + intro H. apply N. now apply keys_set_NoDup.
    + intro k. rewrite I, keys_set_In. intuition.
Qed.

Lemma addAllocationShares_returns t sm a :
  In (TransactionAllocation.member_id a) (Js.keys sm) ->
  exists sm', addAllocationShares t sm a = Js.Return sm'
              /\ Js.keys sm' = Js.keys sm.
Proof.
  intro H. unfold addAllocationShares.
  destruct (proj2 (get_Some_In _ _) H) as [ms E]. rewrite E.
  eexists. split; [reflexivity|]. now apply keys_set_present.
Qed.

Lemma addAllocationShares_throws t sm a :
  ~ In (TransactionAllocation.member_id a) (Js.keys sm) ->
  addAllocationShares t sm a = Js.Throw Js.TypeError.
Proof.
  intro H. unfold addAllocationShares.
  apply get_None_notIn in H. now rewrite H.
Qed.

(** The allocations of one transaction. *)
Lemma transaction_returns (K : list string) t (allocs : list TransactionAllocation.t) sm :
  Js.keys sm = K ->
  forallb (memberKnown K) allocs = true ->
  exists sm', Js.forEach (addAllocationShares t) allocs sm = Js.Return sm'
              /\ Js.keys sm' = K.
Proof.
  intros HK HA.
  apply (forEach_returns (addAllocationShares t)
           (fun s => Js.keys s = K)
           (fun a => In (TransactionAllocation.member_id a) K)).
  - intros s x Hs Hx. rewrite <- Hs in Hx.
    destruct (addAllocationShares_returns t s x Hx) as [s' [E1 E2]].
    exists s'. split; congruence.
  - exact HK.
  - apply Forall_forall. intros a Ha. apply memberKnown_In.
    rewrite forallb_forall in HA. now apply HA.
Qed.

Lemma transaction_throws (K : list string) t (allocs : list TransactionAllocation.t) sm :
  Js.keys sm = K ->
  forallb (memberKnown K) allocs = false ->
  Js.forEach (addAllocationShares t) allocs sm = Js.Throw Js.TypeError.
Proof.
  intros HK HA.
  apply (forEach_throws (addAllocationShares t)
           (fun s => Js.keys s = K)
           (fun a => In (TransactionAllocation.member_id a) K)
           (fun a => ~ In (TransactionAllocation.member_id a) K)).
  - intros s x Hs Hx. rewrite <- Hs in Hx.
    destruct (addAllocationShares_returns t s x Hx) as [s' [E1 E2]].
    exists s'. split; congruence.
  - intros s x Hs Hx. rewrite <- Hs in Hx.
    now apply addAllocationShares_throws.
  - exact HK.
  - apply Forall_forall. intros a _.
    destruct (in_dec string_dec (TransactionAllocation.member_id a) K); auto.
  - apply Exists_exists.
    assert (E : existsb (fun a => negb (memberKnown K a)) allocs = true).
    { clear -HA. induction allocs as [|a l IH]; simpl in *; [discriminate|].
      destruct (memberKnown K a); simpl in *; auto. }
    apply existsb_exists in E. destruct E as [a [Ha Hn]].
    exists a. split; [exact Ha|].
    rewrite <- memberKnown_In. apply negb_true_iff in Hn. congruence.
Qed.

Lemma initial_sharesMap (data : CalculationData) :
  let sm : NestedMap :=
    fold_left (fun sharesMap member =>
                 Js.set (FamilyMember.id member) [] sharesMap)
              (members data) [] in
  NoDup (Js.keys sm) /\ (forall k, In k (Js.keys sm) <-> In k (memberIds data)).
Proof.
  destruct (initial_sharesMap_keys (members data) []) as [N I]. split.
  - apply N. constructor.
  - intro k. rewrite I. simpl. unfold memberIds. tauto.
Qed.

Lemma memberKnown_ext K K' a :
  (forall k, In k K <-> In k K') -> memberKnown K a = memberKnown K' a.
Proof.
  intro H. apply eq_true_iff_eq. rewrite !memberKnown_In. apply H.
Qed.

Lemma forallb_pointwise {A} (p q : A -> bool) (l : list A) :
  (forall x, p x = q x) -> forallb p l = forallb q l.
Proof.
  intro H. induction l as [|x l IH]; simpl; [reflexivity|].
  now rewrite H, IH.
Qed.

(** On a snapshot whose allocations name members of the snapshot,
    [calculateMemberShares] returns a map with one key per member id. *)
Lemma calculateMemberShares_returns (data : CalculationData) :
  memberRefsResolve data = true ->
  exists sm, calculateMemberShares data = Js.Return sm
             /\ NoDup (Js.keys sm)
             /\ (forall k, In k (Js.keys sm) <-> In k (memberIds data)).
Proof.
  intro R. unfold calculateMemberShares.
  destruct (initial_sharesMap data) as [N I].
  cbv zeta in N, I |- *.
  match type of N with NoDup (Js.keys ?s) => set (sm0 := s) in * end.
  destruct (forEach_returns
              (fun sharesMap transaction =>
                 Js.forEach (addAllocationShares transaction)
                   (filter (fun a => String.eqb
                                       (TransactionAllocation.transaction_id a)
                                       (Transaction.id transaction))
                           (allocations data)) sharesMap)
              (fun s => Js.keys s = Js.keys sm0)
              (fun t => transactionResolved data t = true)) with
    (xs := transactions data) (s := sm0) as [sm [E K]].
  - intros s t Hs Ht. apply transaction_returns; [exact Hs|].
    unfold transactionResolved in Ht. rewrite <- Ht.
    apply forallb_pointwise. intro a. apply memberKnown_ext. exact I.
  - reflexivity.
  - apply Forall_forall. unfold memberRefsResolve in R.
    rewrite forallb_forall in R. exact R.
  - exists sm. rewrite K. auto.
Qed.

(** Otherwise it throws the [TypeError] of a read on [undefined]. *)
Lemma calculateMemberShares_throws (data : CalculationData) :
  memberRefsResolve data = false ->
  calculateMemberShares data = Js.Throw Js.TypeError.
Proof.
  intro R. unfold calculateMemberShares.
  destruct (initial_sharesMap data) as [N I].
  cbv zeta in N, I |- *.
  match type of N with NoDup (Js.keys ?s) => set (sm0 := s) in * end.
  apply (forEach_throws _
           (fun s => Js.keys s = Js.keys sm0)
           (fun t => transactionResolved data t = true)
           (fun t => transactionResolved data t = false)).
  - intros s t Hs Ht. apply transaction_returns; [exact Hs|].
    unfold transactionResolved in Ht. rewrite <- Ht.
    apply forallb_pointwise. intro a. apply memberKnown_ext. exact I.
  - intros s t Hs Ht. apply (transaction_throws (Js.keys sm0)); [exact Hs|].
    unfold transactionResolved in Ht. rewrite <- Ht.
    apply forallb_pointwise. intro a. apply memberKnown_ext. exact I.
  - reflexivity.
  - apply Forall_forall. intros t _.
    destruct (transactionResolved data t); auto.
  - apply Exists_exists. unfold memberRefsResolve in R.
    assert (E : existsb (fun t => negb (transactionResolved data t))
                        (transactions data) = true).
    { clear -R. induction (transactions data) as [|t l IH]; simpl in *;
        [discriminate|].
      destruct (transactionResolved data t); simpl in *; auto. }
    apply existsb_exists in E. destruct E as [t [Ht Hn]].
    exists t. split; [exact Ht|]. now apply negb_true_iff.
Qed.

Lemma calculateMemberShares_Return_inv (data : CalculationData) sm :
  calculateMemberShares data = Js.Return sm ->
  memberRefsResolve data = true
  /\ NoDup (Js.keys sm)
  /\ (forall k, In k (Js.keys sm) <-> In k (memberIds data)).
Proof.
  intro E. destruct (memberRefsResolve data) eqn:R.
  - destruct (calculateMemberShares_returns data R) as [sm' [E' H]].
    rewrite E in E'. inversion E'. subst. auto.
  - rewrite (calculateMemberShares_throws data R) in E. discriminate.
Qed.

(** ** calculateCostBasis never throws *)

Lemma addAllocationCost_returns data m a :
  exists m', addAllocationCost data m a = Js.Return m'.
Proof.
  unfold addAllocationCost.
  destruct (find _ (transactions data)) as [t|]; [|eauto].
  cbv zeta.
  match goal with |- context [Js.get _ ?s] => set (m1 := s) end.
  assert (H : exists inner,
             Js.get (TransactionAllocation.member_id a) m1 = Some inner).
  { subst m1. unfold Js.has.
    destruct (Js.get (TransactionAllocation.member_id a) m) eqn:E; simpl.
    - eauto.
    - rewrite get_set_same. eauto. }
  destruct H as [inner E]. rewrite E. eauto.
Qed.

Lemma calculateCostBasis_returns data :
  exists m, calculateCostBasis data = Js.Return m.
Proof.
  unfold calculateCostBasis.
  destruct (forEach_returns (addAllocationCost data)
              (fun _ => True) (fun _ => True)) with
    (xs := allocations data) (s := @nil (string * Js.Map Q)) as [m [E _]].
  - intros s x _ _. destruct (addAllocationCost_returns data s x) as [m' E].
    eauto.
  - exact I.
  - apply Forall_forall. auto.
  - eauto.
Qed.

Lemma find_existsb {A} (p : A -> bool) (l : list A) :
  existsb p l = false -> find p l = None.
Proof.
  induction l as [|x l IH]; simpl; [reflexivity|].
  destruct (p x); simpl; [discriminate|exact IH].
Qed.

(** An allocation whose transaction is missing leaves the map as it is. *)
Lemma addAllocationCost_dangling data m a :
  transactionResolves data a = false ->
  addAllocationCost data m a = Js.Return m.
Proof.
  intro H. unfold addAllocationCost, transactionResolves in *.
  now rewrite (find_existsb _ _ H).
Qed.

(** ** calculateMemberCash *)

Lemma Set_has_filter (p : Transaction.t -> bool) (ts : list Transaction.t)
    (x : string) :
  Js.Set_has (map Transaction.id (filter p ts)) x
  = existsb (fun t => String.eqb (Transaction.id t) x && p t) ts.
Proof.
  unfold Js.Set_has. induction ts as [|t ts IH]; simpl; [reflexivity|].
  destruct (p t); simpl; rewrite IH.
  - now rewrite String.eqb_sym, andb_true_r.
  - now rewrite andb_false_r.
Qed.

Lemma filter_pointwise {A} (p q : A -> bool) (l : list A) :
  (forall x, p x = q x) -> filter p l = filter q l.
Proof.
  intro H. induction l as [|x l IH]; simpl; [reflexivity|].
  now rewrite H, IH.
Qed.

Lemma memberCashPool_figures (data : CalculationData) (member : FamilyMember.t) :
  let pool := memberCashPool data member in
  let id := FamilyMember.id member in
  MemberCashPool.member_id pool = id
  /\ MemberCashPool.total_contributions pool == contributionsOf data id
  /\ MemberCashPool.total_buys pool == allocatedOf data buy id
  /\ MemberCashPool.total_sells pool == allocatedOf data sell id
  /\ MemberCashPool.available_cash pool
     = MemberCashPool.total_contributions pool
       - MemberCashPool.total_buys pool + MemberCashPool.total_sells pool.
Proof.
  unfold memberCashPool, contributionsOf, allocatedOf. simpl.
  repeat split.
  - apply reduceSum_Qsum.
  - rewrite reduceSum_Qsum.
    erewrite filter_pointwise; [reflexivity|].
    intro a. simpl. now rewrite Set_has_filter.
  - rewrite reduceSum_Qsum.
    erewrite filter_pointwise; [reflexivity|].
    intro a. simpl. now rewrite Set_has_filter.
Qed.

(** The entry of a member id is the record of the last member with that
    id. *)
Lemma cashMap_get (data : CalculationData) (ms : list FamilyMember.t)
    (acc : Js.Map MemberCashPool.t) (k : string) :
  let cashMap :=
    fold_left (fun cashMap member =>
                 Js.set (FamilyMember.id member) (memberCashPool data member)
                        cashMap) ms acc in
  (In k (map FamilyMember.id ms) ->
   exists member, In member ms /\ FamilyMember.id member = k
                  /\ Js.get k cashMap = Some (memberCashPool data member))
  /\ (~ In k (map FamilyMember.id ms) -> Js.get k cashMap = Js.get k acc).
Proof.
  revert acc. induction ms as [|m ms IH]; intro acc; simpl.
  - split; [intros []|reflexivity].
  - destruct (IH (Js.set (FamilyMember.id m) (memberCashPool data m) acc))
      as [IH1 IH2].
    split.
    + intro H. destruct (in_dec string_dec k (map FamilyMember.id ms)) as [I|I].
      * destruct (IH1 I) as [m' [H1 [H2 H3]]]. exists m'. auto.
      * destruct H as [H|H]; [|contradiction].
        exists m. rewrite (IH2 I). subst k. rewrite get_set_same. auto.
    + intro H. rewrite IH2 by tauto. apply get_set_other.
      intro E. apply H. left. now symmetry.
Qed.

Lemma calculateMemberCash_get (data : CalculationData) (k : string) :
  In k (memberIds data) ->
  exists member, In member (members data) /\ FamilyMember.id member = k
    /\ Js.get k (calculateMemberCash data) = Some (memberCashPool data member).
Proof.
  intro H. apply (proj1 (cashMap_get data (members data) [] k)). exact H.
Qed.

(** C3.  For every member of the snapshot, [calculateMemberCash] has an
    entry whose available_cash is the sum of the member's contributions,
    minus the sum of the member's allocation amounts on buy transactions,
    plus the sum of those on sell transactions; for a member without
    contributions and allocations the four figures are 0.  The function
    has no failing step. *)
Theorem calculateMemberCash_available_cash
    (data : CalculationData) (member : FamilyMember.t) :
  In member (members data) ->
  let id := FamilyMember.id member in
  exists pool,
    Js.get id (calculateMemberCash data) = Some pool
    /\ MemberCashPool.member_id pool = id
    /\ MemberCashPool.total_contributions pool == contributionsOf data id
    /\ MemberCashPool.total_buys pool == allocatedOf data buy id
    /\ MemberCashPool.total_sells pool == allocatedOf data sell id
    /\ MemberCashPool.available_cash pool
       == contributionsOf data id - allocatedOf data buy id
          + allocatedOf data sell id
    /\ ((forall c, In c (contributions data) -> Contribution.member_id c <> id) ->
        (forall a, In a (allocations data) ->
                   TransactionAllocation.member_id a <> id) ->
        MemberCashPool.total_contributions pool == 0
        /\ MemberCashPool.total_buys pool == 0
        /\ MemberCashPool.total_sells pool == 0
        /\ MemberCashPool.available_cash pool == 0).
Proof.
  intros H id.
  destruct (calculateMemberCash_get data id) as [m' [H1 [H2 H3]]].
  { unfold memberIds. now apply in_map. }
  exists (memberCashPool data m').
  destruct (memberCashPool_figures data m') as [F1 [F2 [F3 [F4 F5]]]].
  cbv zeta in F1, F2, F3, F4, F5. rewrite H2 in *.
  assert (A : MemberCashPool.available_cash (memberCashPool data m')
              == contributionsOf data id - allocatedOf data buy id
                 + allocatedOf data sell id).
  { rewrite F5, F2, F3, F4. reflexivity. }
  repeat (split; [assumption|]).
  intros NC NA.
  assert (C0 : contributionsOf data id == 0).
  { unfold contributionsOf.
    replace (filter _ (contributions data)) with (@nil Contribution.t);
      [reflexivity|].
    symmetry. induction (contributions data) as [|c l IH]; [reflexivity|].
    simpl. destruct (String.eqb _ _) eqn:E.
    - apply String.eqb_eq in E. exfalso. apply (NC c); simpl; auto.
    - apply IH. intros c' Hc'. apply NC. now right. }
  assert (A0 : forall ty, allocatedOf data ty id == 0).
  { intro ty. unfold allocatedOf.
    replace (filter _ (allocations data)) with (@nil TransactionAllocation.t);
      [reflexivity|].
    symmetry. induction (allocations data) as [|a l IH]; [reflexivity|].
    simpl. destruct (String.eqb _ _) eqn:E; simpl.
    - apply String.eqb_eq in E. exfalso. apply (NA a); simpl; auto.
    - apply IH. intros a' Ha'. apply NA. now right. }
  rewrite A, F2, F3, F4, C0, !A0. repeat split; reflexivity.
Qed.

(** ** calculatePortfolioSummary: the member breakdown *)

Lemma valueStocks_from (shares memberCostBasisMap : Js.Map Q)
    (stocks : list Stock.t) (v0 c0 : Q) :
  exists v c,
    Js.forEach (valueStock (Some shares) memberCostBasisMap) stocks (v0, c0)
    = Js.Return (v, c)
    /\ v == v0 + Qsum (map (fun s => Js.orZero (Js.get (Stock.id s) shares)
                                     * Js.orZero (Stock.current_price s)) stocks)
    /\ c == c0 + Qsum (map (fun s => Js.orZero (Js.get (Stock.id s)
                                                       memberCostBasisMap))
                           stocks).
Proof.
  revert v0 c0. induction stocks as [|s stocks IH]; intros v0 c0; simpl.
  - exists v0, c0. repeat split; ring.
  - destruct (IH (v0 + Js.orZero (Js.get (Stock.id s) shares)
                       * Js.orZero (Stock.current_price s))
                 (c0 + Js.orZero (Js.get (Stock.id s) memberCostBasisMap)))
      as [v [c [E [Hv Hc]]]].
    exists v, c. split; [exact E|]. rewrite Hv, Hc. split; ring.
Qed.

(** A security without a price adds nothing to the value. *)
Lemma priced_value (shareCount : Stock.t -> Q) (stocks : list Stock.t) :
  Qsum (map (fun s => shareCount s * Js.orZero (Stock.current_price s)) stocks)
  == Qsum (map (fun s => shareCount s
                         * match Stock.current_price s with
                           | Some p => p
                           | None => 0
                           end)
               (filter priceKnown stocks)).
Proof.
  induction stocks as [|s stocks IH]; [reflexivity|].
  cbn [map filter Qsum]. rewrite IH. unfold priceKnown at 2.
  destruct (Stock.current_price s) as [p|] eqn:P; cbn [map Qsum].
  - rewrite P, orZero_Some. reflexivity.
  - simpl. ring.
Qed.

Lemma summarizeMember_returns data memberCash memberShares costBasis
    totalCash member cash shares :
  Js.get (FamilyMember.id member) memberCash = Some cash ->
  Js.get (FamilyMember.id member) memberShares = Some shares ->
  exists row,
    summarizeMember data memberCash memberShares costBasis totalCash member
    = Js.Return (row, totalCash + MemberPortfolioSummary.availableCash row)
    /\ isRowOf data memberCash memberShares costBasis member row.
Proof.
  intros Hc Hs. unfold summarizeMember, valueStocks. rewrite Hc, Hs.
  cbv zeta.
  destruct (valueStocks_from shares
              (match Js.get (FamilyMember.id member) costBasis with
               | Some m => m | None => [] end)
              (stocks data) 0 0) as [v [c [E [Hv Hcb]]]].
  rewrite E. simpl.
  match goal with |- exists row, Js.Return (?r, _) = _ /\ _ => exists r end.
  split; [reflexivity|].
  unfold isRowOf. simpl.
  split; [reflexivity|]. split; [exists cash; auto|].
  split.
  { rewrite Hv, priced_value. unfold stockValueOf, nestedGetOrZero.
    rewrite Hs. ring. }
  split.
  { rewrite Hcb. unfold costBasisOf, nestedGetOrZero.
    destruct (Js.get (FamilyMember.id member) costBasis); simpl; ring. }
  auto.
Qed.

Lemma breakdown_returns data memberCash memberShares costBasis
    (ms : list FamilyMember.t) (totalCash : Q) :
  (forall m, In m ms -> In (FamilyMember.id m) (Js.keys memberCash)) ->
  (forall m, In m ms -> In (FamilyMember.id m) (Js.keys memberShares)) ->
  exists rows totalCash',
    Js.mapS (summarizeMember data memberCash memberShares costBasis) ms totalCash
    = Js.Return (rows, totalCash')
    /\ Forall2 (isRowOf data memberCash memberShares costBasis) ms rows
    /\ totalCash'
       == totalCash + Qsum (map MemberPortfolioSummary.availableCash rows).
Proof.
  revert totalCash. induction ms as [|m ms IH]; intros totalCash Kc Ks; simpl.
  - exists [], totalCash. repeat split; [constructor|simpl; ring].
  - destruct (proj2 (get_Some_In _ _) (Kc m (or_introl eq_refl))) as [cash Hc].
    destruct (proj2 (get_Some_In _ _) (Ks m (or_introl eq_refl))) as [sh Hs].
    destruct (summarizeMember_returns data memberCash memberShares costBasis
                totalCash m cash sh Hc Hs) as [row [E R]].
    rewrite E. simpl.
    destruct (IH (totalCash + MemberPortfolioSummary.availableCash row))
      as [rows [tc' [E' [F T]]]].
    { intros m' Hm'. apply Kc. now right. }
    { intros m' Hm'. apply Ks. now right. }
    rewrite E'. simpl. exists (row :: rows), tc'.
    split; [reflexivity|]. split; [now constructor|].
    rewrite T. simpl. ring.
Qed.

(** ** calculatePortfolioSummary: when it returns and what it returns *)

Lemma calculateMemberCash_keys (data : CalculationData) (m : FamilyMember.t) :
  In m (members data) ->
  In (FamilyMember.id m) (Js.keys (calculateMemberCash data)).
Proof.
  intro H. apply get_Some_In.
  destruct (calculateMemberCash_get data (FamilyMember.id m)) as [m' [_ [_ E]]].
  - unfold memberIds. now apply in_map.
  - eauto.
Qed.

Lemma calculatePortfolioSummary_returns (data : CalculationData) :
  memberRefsResolve data = true ->
  exists memberShares costBasis rows totalCash,
    calculateMemberShares data = Js.Return memberShares
    /\ calculateCostBasis data = Js.Return costBasis
    /\ Forall2 (isRowOf data (calculateMemberCash data) memberShares costBasis)
               (members data) rows
    /\ totalCash == Qsum (map MemberPortfolioSummary.availableCash rows)
    /\ calculatePortfolioSummary data
       = Js.Return (totalsAndOwnership rows totalCash).
Proof.
  intro R.
  destruct (calculateMemberShares_returns data R) as [sm [Es [_ Ks]]].
  destruct (calculateCostBasis_returns data) as [cb Ec].
  destruct (breakdown_returns data (calculateMemberCash data) sm cb
              (members data) 0) as [rows [tc [Em [F T]]]].
  - apply calculateMemberCash_keys.
  - intros m Hm. apply Ks. unfold memberIds. now apply in_map.
  - exists sm, cb, rows, tc. repeat (split; [assumption|]). split.
    + rewrite T. ring.
    + unfold calculatePortfolioSummary. rewrite Es, Ec. simpl.
      rewrite Em. reflexivity.
Qed.

Lemma calculatePortfolioSummary_throws (data : CalculationData) :
  memberRefsResolve data = false ->
  calculatePortfolioSummary data = Js.Throw Js.TypeError.
Proof.
  intro R. unfold calculatePortfolioSummary.
  now rewrite (calculateMemberShares_throws data R).
Qed.


Lemma Forall2_map_pointwise {A B C} (R : B -> C -> Prop)
    (f : A -> B) (g : A -> C) (l : list A) :
  (forall x, In x l -> R (f x) (g x)) -> Forall2 R (map f l) (map g l).
Proof.
  induction l as [|x l IH]; intro H; simpl; constructor.
  - apply H. now left.
  - apply IH. intros y Hy. apply H. now right.
Qed.

(** The parts of a nonzero total add up to the whole. *)
Lemma Qsum_quotients {A} (f : A -> Q) (l : list A) (total : Q) :
  Qsum (map (fun x => f x / total) l) == Qsum (map f l) / total.
Proof.
  unfold Qdiv. apply (Qsum_scale f (/ total)).
Qed.


Lemma Qlt_0_neq (x : Q) : 0 < x -> ~ x == 0.
Proof. intros P Z. rewrite Z in P. discriminate. Qed.

Section Totals.
Variable rows : list MemberPortfolioSummary.t.
Variable totalCash : Q.
Let s := totalsAndOwnership rows totalCash.
Let breakdown := PortfolioSummary.memberBreakdown s.
Let total := Qsum (map MemberPortfolioSummary.totalValue breakdown).







End Totals.

(** ** Ownership percentages (C1) *)




(** ** Portfolio gain and loss (C2) *)






(** ** Unknown prices (C7) *)

Lemma Forall2_map_right {A B C} (R : A -> B -> Prop) (R' : A -> C -> Prop)
    (g : B -> C) (l : list A) (l' : list B) :
  (forall x y, R x y -> R' x (g y)) ->
  Forall2 R l l' -> Forall2 R' l (map g l').
Proof.
  intros H F. induction F; simpl; constructor; auto.
Qed.






(** ** The concrete scenario (C8) *)

(** C8.  Members A and B contribute 1000 each; a purchase of 10 shares of X
    at 100 is allocated 600 (0.6) to A and 400 (0.4) to B; X is at 120.
    Then A holds 6 shares and B 4, A has 400 of cash and B 600, A's stock
    is worth 720 and B's 480, the cost bases are 600 and 400 and the gains
    120 and 80. *)
Theorem scenario_figures :
  exists memberShares s a b,
    calculateMemberShares Example.scenario = Js.Return memberShares
    /\ nestedGetOrZero memberShares "A" "X" == 6
    /\ nestedGetOrZero memberShares "B" "X" == 4
    /\ calculatePortfolioSummary Example.scenario = Js.Return s
    /\ PortfolioSummary.memberBreakdown s = [a; b]
    /\ (MemberPortfolioSummary.memberId a = "A"%string
        /\ MemberPortfolioSummary.availableCash a == 400
        /\ MemberPortfolioSummary.currentStockValue a == 720
        /\ MemberPortfolioSummary.costBasis a == 600
        /\ MemberPortfolioSummary.gainLoss a == 120)
    /\ (MemberPortfolioSummary.memberId b = "B"%string
        /\ MemberPortfolioSummary.availableCash b == 600
        /\ MemberPortfolioSummary.currentStockValue b == 480
        /\ MemberPortfolioSummary.costBasis b == 400
        /\ MemberPortfolioSummary.gainLoss b == 80)
    /\ (exists poolA poolB,
          Js.get "A"%string (calculateMemberCash Example.scenario) = Some poolA
          /\ MemberCashPool.available_cash poolA == 400
          /\ Js.get "B"%string (calculateMemberCash Example.scenario) = Some poolB
          /\ MemberCashPool.available_cash poolB == 600).
Proof.
  do 4 eexists.
  split; [vm_compute; reflexivity|].
  split; [vm_compute; reflexivity|].
  split; [vm_compute; reflexivity|].
  split; [vm_compute; reflexivity|].
  split; [reflexivity|].
  split; [repeat split; vm_compute; reflexivity|].
  split; [repeat split; vm_compute; reflexivity|].
  do 2 eexists.
  split; [vm_compute; reflexivity|].
  split; [vm_compute; reflexivity|].
  split; [vm_compute; reflexivity|].
  vm_compute; reflexivity.
Qed.

(** ** calculateCostBasis and dangling allocations (C9) *)

(** C9.  [calculateCostBasis] returns on every snapshot, an allocation
    whose transaction_id matches no transaction leaves the cost-basis map
    as it is, and the result is the one of the snapshot without those
    allocations. *)
Theorem calculateCostBasis_ignores_dangling (data : CalculationData) :
  (exists costBasis,
     calculateCostBasis data = Js.Return costBasis
     /\ calculateCostBasis (withoutDanglingAllocations data)
        = Js.Return costBasis)
  /\ (forall costBasisMap a,
        transactionResolves data a = false ->
        addAllocationCost data costBasisMap a = Js.Return costBasisMap).
Proof.
  split.
  - destruct (calculateCostBasis_returns data) as [cb E].
    exists cb. split; [exact E|]. rewrite <- E.
    unfold calculateCostBasis.
    change (addAllocationCost (withoutDanglingAllocations data))
      with (addAllocationCost data).
    change (allocations (withoutDanglingAllocations data))
      with (filter (transactionResolves data) (allocations data)).
    apply forEach_filter. intros m a. apply addAllocationCost_dangling.
  - intros m a. apply addAllocationCost_dangling.
Qed.

Lemma calculateCostBasis_ignores_dangling_witness :
  (exists costBasis,
     calculateCostBasis Example.danglingTransaction = Js.Return costBasis
     /\ calculateCostBasis Example.scenario = Js.Return costBasis)
  /\ addAllocationCost Example.danglingTransaction
       [("A"%string, [("X"%string, 600)])]
       (Example.allocation "a3" "t9" "A" 50 0.5)
     = Js.Return [("A"%string, [("X"%string, 600)])].
Proof.
  destruct (calculateCostBasis_ignores_dangling Example.danglingTransaction)
    as [[cb [E1 E2]] H].
  split.
  - exists cb. split; [exact E1|]. rewrite <- E2. reflexivity.
  - apply H. reflexivity.
Defined.

(** ** calculateSellAllocations (C4, C10) *)

Lemma totalShares_loop (stockId : string) (sm : NestedMap) (t0 : Q) :
  fold_left (fun totalShares '(_, stockMap) =>
               totalShares + sharesOf stockId stockMap) sm t0
  == t0 + Qsum (map (fun e => sharesOf stockId (snd e)) sm).
Proof.
  revert t0. induction sm as [|[k stockMap] sm IH]; intro t0; simpl.
  - ring.
  - rewrite IH. ring.
Qed.

Lemma proposal_loop (stockId : string) (totalAmount totalShares : Q)
    (sm : NestedMap) (acc : list SellAllocation.t) :
  fold_left
    (fun allocations '(memberId, stockMap) =>
       let shares := sharesOf stockId stockMap in
       if Js.gt0 shares then
         let percentage := Js.div shares totalShares in
         allocations ++
           [ {| SellAllocation.member_id := memberId;
                SellAllocation.amount := Js.timesl totalAmount percentage;
                SellAllocation.percentage := percentage |} ]
       else allocations)
    sm acc
  = acc ++ map (proposedAllocation stockId totalAmount totalShares)
               (filter (holdsShares stockId) sm).
Proof.
  revert acc. induction sm as [|[k stockMap] sm IH]; intro acc; simpl.
  - now rewrite app_nil_r.
  - rewrite IH. unfold holdsShares at 2. simpl.
    destruct (Js.gt0 (sharesOf stockId stockMap)); simpl; [|reflexivity].
    now rewrite <- app_assoc.
Qed.

(** The share count of a member read through the nested map is the one of
    the member's entry. *)
Lemma nestedGetOrZero_entry (sm : NestedMap) (stockId : string) e :
  NoDup (Js.keys sm) -> In e sm ->
  nestedGetOrZero sm (fst e) stockId = sharesOf stockId (snd e).
Proof.
  intros N H. destruct e as [k stockMap]. unfold nestedGetOrZero. simpl.
  now rewrite (In_get_NoDup k stockMap sm N H).
Qed.

Lemma shares_by_key (sm : NestedMap) (stockId : string) :
  NoDup (Js.keys sm) ->
  map (fun e => sharesOf stockId (snd e)) sm
  = map (fun id => nestedGetOrZero sm id stockId) (Js.keys sm).
Proof.
  intro N. unfold Js.keys. rewrite map_map. apply map_ext_in.
  intros e He. symmetry. now apply nestedGetOrZero_entry.
Qed.

(** What [calculateSellAllocations] returns, given the shares map. *)
Lemma calculateSellAllocations_result stockId quantity pricePerShare data sm :
  calculateMemberShares data = Js.Return sm ->
  let total := Qsum (map (fun id => nestedGetOrZero sm id stockId) (Js.keys sm)) in
  exists totalShares,
    totalShares == total
    /\ calculateSellAllocations stockId quantity pricePerShare data
       = Js.Return
           (if Qeq_bool totalShares 0 then []
            else map (proposedAllocation stockId (quantity * pricePerShare)
                                         totalShares)
                     (filter (holdsShares stockId) sm)).
Proof.
  intros E total.
  destruct (calculateMemberShares_Return_inv data sm E) as [_ [N _]].
  unfold calculateSellAllocations. rewrite E. simpl.
  match goal with |- context [Qeq_bool ?t 0] => exists t end.
  split.
  - rewrite totalShares_loop. subst total. rewrite shares_by_key by exact N.
    ring.
  - destruct (Qeq_bool _ 0); [reflexivity|]. now rewrite proposal_loop.
Qed.




(** Dropping the entries that are not strictly positive does not change
    the sum of nonnegative numbers. *)
Lemma Qsum_positive_part {A} (f : A -> Q) (l : list A) :
  (forall x, In x l -> 0 <= f x) ->
  Qsum (map f (filter (fun x => Js.gt0 (f x)) l)) == Qsum (map f l).
Proof.
  induction l as [|x l IH]; intro H; simpl; [reflexivity|].
  assert (IH' := IH (fun y Hy => H y (or_intror Hy))).
  destruct (Js.gt0 (f x)) eqn:G; simpl.
  - now rewrite IH'.
  - apply gt0_false in G.
    assert (Z : f x == 0) by (apply Qle_antisym; [exact G|apply H; now left]).
    rewrite IH', Z. ring.
Qed.

(** With nonnegative holdings the proposal distributes the whole sale. *)
Lemma proposal_sums (stockId : string) (totalAmount totalShares : Q)
    (sm : NestedMap) :
  (forall e, In e sm -> 0 <= sharesOf stockId (snd e)) ->
  totalShares == Qsum (map (fun e => sharesOf stockId (snd e)) sm) ->
  ~ totalShares == 0 ->
  let result := map (proposedAllocation stockId totalAmount totalShares)
                    (filter (holdsShares stockId) sm) in
  exists ps amounts,
    Forall2 Js.equals (map SellAllocation.percentage result) ps
    /\ Qsum ps == 1
    /\ Forall2 Js.equals (map SellAllocation.amount result) amounts
    /\ Qsum amounts == totalAmount.
Proof.
  intros P T NZ result.
  set (held := filter (holdsShares stockId) sm) in *.
  set (pct := fun e : string * Js.Map Q =>
                sharesOf stockId (snd e) / totalShares).
  assert (S1 : Qsum (map pct held) == 1).
  { subst pct. rewrite Qsum_quotients. subst held.
    unfold holdsShares.
    rewrite (Qsum_positive_part (fun e => sharesOf stockId (snd e)) sm P).
    rewrite <- T. now field. }
  exists (map pct held), (map (fun e => pct e * totalAmount) held).
  subst result. rewrite !map_map.
  split; [|split; [exact S1|split]].
  - apply Forall2_map_pointwise. intros e _.
    unfold proposedAllocation. simpl. rewrite div_finite by exact NZ.
    simpl. reflexivity.
  - apply Forall2_map_pointwise. intros e _.
    unfold proposedAllocation, Js.timesl. simpl.
    rewrite div_finite by exact NZ. simpl. reflexivity.
  - rewrite (Qsum_scale pct totalAmount), S1. ring.
Qed.

(** C10.  When every member's net share count of the security is
    nonnegative and their total is strictly positive, the percentages of
    the entries sum to 1 and the amounts to quantity times pricePerShare;
    with a negative holder this fails on some snapshot. *)
Theorem calculateSellAllocations_sums :
  (forall (stockId : string) (quantity pricePerShare : Q)
          (data : CalculationData),
     memberRefsResolve data = true ->
     exists memberShares result,
       calculateMemberShares data = Js.Return memberShares
       /\ calculateSellAllocations stockId quantity pricePerShare data
          = Js.Return result
       /\ let shares := fun id => nestedGetOrZero memberShares id stockId in
          ((forall id, In id (memberIds data) -> 0 <= shares id) ->
           0 < Qsum (map shares (Js.keys memberShares)) ->
           exists ps amounts,
             Forall2 Js.equals (map SellAllocation.percentage result) ps
             /\ Qsum ps == 1
             /\ Forall2 Js.equals (map SellAllocation.amount result) amounts
             /\ Qsum amounts == quantity * pricePerShare))
  /\ (exists (stockId : string) (quantity pricePerShare : Q)
             (data : CalculationData) memberShares result ps amounts,
        memberRefsResolve data = true
        /\ calculateMemberShares data = Js.Return memberShares
        /\ (exists id, In id (memberIds data)
                       /\ nestedGetOrZero memberShares id stockId < 0)
        /\ 0 < Qsum (map (fun id => nestedGetOrZero memberShares id stockId)
                         (Js.keys memberShares))
        /\ calculateSellAllocations stockId quantity pricePerShare data
           = Js.Return result
        /\ Forall2 Js.equals (map SellAllocation.percentage result) ps
        /\ ~ Qsum ps == 1
        /\ Forall2 Js.equals (map SellAllocation.amount result) amounts
        /\ ~ Qsum amounts == quantity * pricePerShare).
Proof.
  split.
  - intros stockId quantity pricePerShare data R.
    destruct (calculateMemberShares_returns data R) as [sm [E [N K]]].
    destruct (calculateSellAllocations_result stockId quantity pricePerShare
                data sm E) as [ts [T Er]].
    cbv zeta in T.
    eexists sm, _. split; [exact E|]. split; [exact Er|].
    cbv zeta. intros P G.
    assert (NZ : ~ ts == 0) by (rewrite T; now apply Qlt_0_neq).
    destruct (Qeq_bool ts 0) eqn:B; [apply Qeq_bool_iff in B; contradiction|].
    apply proposal_sums.
    + intros e He.
      rewrite <- (nestedGetOrZero_entry sm stockId e N He).
      apply P, K. unfold Js.keys. now apply in_map.
    + rewrite T, shares_by_key by exact N. reflexivity.
    + exact NZ.
  - exists "X"%string, 5, 120, Example.shortSeller.
    eexists. eexists. exists [2], [1200].
    split; [reflexivity|].
    split; [vm_compute; reflexivity|].
    split; [exists "B"%string; split; [vm_compute; auto|vm_compute; reflexivity]|].
    split; [vm_compute; reflexivity|].
    split; [vm_compute; reflexivity|].
    split; [repeat constructor; vm_compute; reflexivity|].
    split; [vm_compute; discriminate|].
    split; [repeat constructor; vm_compute; reflexivity|].
    vm_compute; discriminate.
Qed.

Lemma calculateSellAllocations_sums_witness :
  exists result ps amounts,
    calculateSellAllocations "X" 5 120 Example.scenario = Js.Return result
    /\ Forall2 Js.equals (map SellAllocation.percentage result) ps
    /\ Qsum ps == 1
    /\ Forall2 Js.equals (map SellAllocation.amount result) amounts
    /\ Qsum amounts == 5 * 120.
Proof.
  destruct (proj1 calculateSellAllocations_sums "X"%string 5 120
              Example.scenario eq_refl) as [sm [result [Es [Er H]]]].
  vm_compute in Es. inversion Es. subst sm. clear Es.
  destruct H as [ps [amounts H]].
  - intros id [<-|[<-|[]]]; vm_compute; discriminate.
  - vm_compute. reflexivity.
  - exists result, ps, amounts. auto.
Defined.

(** ** calculateStockWithOwnership (C5) *)


Section StockOwnership.
Variable stock : Stock.t.
Variables memberShares costBasis : NestedMap.





End StockOwnership.




(** ** Failures (C6) *)

Lemma calculateStockWithOwnership_returns stock data :
  memberRefsResolve data = true ->
  exists r, calculateStockWithOwnership stock data = Js.Return r.
Proof.
  intro R.
  destruct (calculateMemberShares_returns data R) as [sm [E _]].
  destruct (calculateCostBasis_returns data) as [cb Ec].
  unfold calculateStockWithOwnership. rewrite E, Ec. simpl.
  destruct (fold_left _ (members data) _) as [[ts tc] mo]. eauto.
Qed.

Lemma calculateStockWithOwnership_throws stock data :
  memberRefsResolve data = false ->
  calculateStockWithOwnership stock data = Js.Throw Js.TypeError.
Proof.
  intro R. unfold calculateStockWithOwnership.
  now rewrite (calculateMemberShares_throws data R).
Qed.

Lemma calculateSellAllocations_returns stockId quantity pricePerShare data :
  memberRefsResolve data = true ->
  exists l,
    calculateSellAllocations stockId quantity pricePerShare data = Js.Return l.
Proof.
  intro R.
  destruct (calculateMemberShares_returns data R) as [sm [E _]].
  destruct (calculateSellAllocations_result stockId quantity pricePerShare
              data sm E) as [ts [_ Er]].
  eauto.
Qed.

Lemma calculateSellAllocations_throws stockId quantity pricePerShare data :
  memberRefsResolve data = false ->
  calculateSellAllocations stockId quantity pricePerShare data
  = Js.Throw Js.TypeError.
Proof.
  intro R. unfold calculateSellAllocations.
  now rewrite (calculateMemberShares_throws data R).
Qed.

(** C6, as the code has it.  No function of the engine raises a
    ReferenceNotFound failure.  [calculateCostBasis] returns on every
    snapshot.  The other functions return exactly on the snapshots in which
    every allocation of a transaction of the snapshot names a member of the
    snapshot, whatever the amounts, percentages, transaction ids of other
    allocations and security ids are; on the remaining snapshots they throw
    the TypeError of a property read on undefined. *)
Theorem failures_are_TypeErrors
    (data : CalculationData) (stock : Stock.t) (stockId : string)
    (quantity pricePerShare : Q) :
  (forall kind id,
     calculateMemberShares data <> Js.Throw (Js.ReferenceNotFound kind id)
     /\ calculateCostBasis data <> Js.Throw (Js.ReferenceNotFound kind id)
     /\ calculatePortfolioSummary data
        <> Js.Throw (Js.ReferenceNotFound kind id)
     /\ calculateStockWithOwnership stock data
        <> Js.Throw (Js.ReferenceNotFound kind id)
     /\ calculateSellAllocations stockId quantity pricePerShare data
        <> Js.Throw (Js.ReferenceNotFound kind id))
  /\ (exists costBasis, calculateCostBasis data = Js.Return costBasis)
  /\ (memberRefsResolve data = true ->
      (exists sm, calculateMemberShares data = Js.Return sm)
      /\ (exists s, calculatePortfolioSummary data = Js.Return s)
      /\ (exists r, calculateStockWithOwnership stock data = Js.Return r)
      /\ (exists l, calculateSellAllocations stockId quantity pricePerShare data
                    = Js.Return l))
  /\ (memberRefsResolve data = false ->
      calculateMemberShares data = Js.Throw Js.TypeError
      /\ calculatePortfolioSummary data = Js.Throw Js.TypeError
      /\ calculateStockWithOwnership stock data = Js.Throw Js.TypeError
      /\ calculateSellAllocations stockId quantity pricePerShare data
         = Js.Throw Js.TypeError).
Proof.
  assert (T : memberRefsResolve data = true ->
      (exists sm, calculateMemberShares data = Js.Return sm)
      /\ (exists s, calculatePortfolioSummary data = Js.Return s)
      /\ (exists r, calculateStockWithOwnership stock data = Js.Return r)
      /\ (exists l, calculateSellAllocations stockId quantity pricePerShare data
                    = Js.Return l)).
  { intro R. split; [|split; [|split]].
    - destruct (calculateMemberShares_returns data R) as [sm [E _]]. eauto.
    - destruct (calculatePortfolioSummary_returns data R)
        as [sm [cb [rows [tc [_ [_ [_ [_ E]]]]]]]]. eauto.
    - now apply calculateStockWithOwnership_returns.
    - now apply calculateSellAllocations_returns. }
  assert (F : memberRefsResolve data = false ->
      calculateMemberShares data = Js.Throw Js.TypeError
      /\ calculatePortfolioSummary data = Js.Throw Js.TypeError
      /\ calculateStockWithOwnership stock data = Js.Throw Js.TypeError
      /\ calculateSellAllocations stockId quantity pricePerShare data
         = Js.Throw Js.TypeError).
  { intro R. split; [|split; [|split]].
    - now apply calculateMemberShares_throws.
    - now apply calculatePortfolioSummary_throws.
    - now apply calculateStockWithOwnership_throws.
    - now apply calculateSellAllocations_throws. }
  destruct (calculateCostBasis_returns data) as [cb Ec].
  split; [|split; [eauto|split; assumption]].
  intros kind id. rewrite Ec.
  destruct (memberRefsResolve data).
  - destruct (T eq_refl) as [[sm E1] [[s E2] [[r E3] [l E4]]]].
    rewrite E1, E2, E3, E4. repeat split; discriminate.
  - destruct (F eq_refl) as [E1 [E2 [E3 E4]]].
    rewrite E1, E2, E3, E4. repeat split; discriminate.
Qed.

Lemma failures_are_TypeErrors_witness :
  ((exists s, calculatePortfolioSummary Example.danglingTransaction
              = Js.Return s)
   /\ (exists s, calculatePortfolioSummary Example.unknownSecurity
                 = Js.Return s)
   /\ (exists s, calculatePortfolioSummary Example.overdrawn = Js.Return s))
  /\ calculatePortfolioSummary Example.unknownMember = Js.Throw Js.TypeError.
Proof.
  split; [split; [|split]|].
  - apply (failures_are_TypeErrors Example.danglingTransaction
             (Example.stock "X" None) "X" 1 1). reflexivity.
  - apply (failures_are_TypeErrors Example.unknownSecurity
             (Example.stock "X" None) "X" 1 1). reflexivity.
  - apply (failures_are_TypeErrors Example.overdrawn
             (Example.stock "X" None) "X" 1 1). reflexivity.
  - apply (failures_are_TypeErrors Example.unknownMember
             (Example.stock "X" None) "X" 1 1). reflexivity.
Defined.

(** C6 as stated fails: an allocation that names a member that does not
    exist ends [calculateMemberShares] and [calculatePortfolioSummary] with
    a TypeError, and [calculateCostBasis] computes through it; an
    allocation on a transaction that does not exist and a purchase of a
    security that does not exist are computed through. *)
Lemma unknown_references_raise_no_ReferenceNotFound :
  calculateMemberShares Example.unknownMember = Js.Throw Js.TypeError
  /\ calculatePortfolioSummary Example.unknownMember = Js.Throw Js.TypeError
  /\ (exists costBasis,
        calculateCostBasis Example.unknownMember = Js.Return costBasis
        /\ nestedGetOrZero costBasis "Z" "X" == 50)
  /\ (exists s, calculatePortfolioSummary Example.danglingTransaction
                = Js.Return s)
  /\ (exists s sm,
        calculatePortfolioSummary Example.unknownSecurity = Js.Return s
        /\ calculateMemberShares Example.unknownSecurity = Js.Return sm
        /\ nestedGetOrZero sm "A" "Q" == 1).
Proof.
  split; [vm_compute; reflexivity|].
  split; [vm_compute; reflexivity|].
  split; [eexists; split; vm_compute; reflexivity|].
  split; [eexists; vm_compute; reflexivity|].
  do 2 eexists. split; [vm_compute; reflexivity|].
  split; vm_compute; reflexivity.
Qed.

(** ** A member without contributions and allocations (C3) *)

Lemma calculateMemberCash_available_cash_witness :
  exists pool,
    Js.get "C"%string (calculateMemberCash Example.withIdleMember) = Some pool
    /\ MemberCashPool.total_contributions pool == 0
    /\ MemberCashPool.total_buys pool == 0
    /\ MemberCashPool.total_sells pool == 0
    /\ MemberCashPool.available_cash pool == 0.
Proof.
  destruct (calculateMemberCash_available_cash Example.withIdleMember
              (Example.member "C")) as [pool [G [_ [_ [_ [_ [_ Z]]]]]]].
  - simpl. auto.
  - exists pool. split; [exact G|]. apply Z.
    + intros c [<-|[<-|[]]]; discriminate.
    + intros a [<-|[<-|[]]]; discriminate.
Defined.

(* ================================================================== *)
(** * Further properties of the engine *)

(** ** Nested maps and additive loops *)

Lemma nestedGet_update {V} (m : Js.Map (Js.Map V)) (k0 s0 : string)
    (inner : Js.Map V) (v : V) (k s : string) :
  Js.get k0 m = Some inner ->
  nestedGet (Js.set k0 (Js.set s0 v inner) m) k s
  = if String.eqb k k0
    then (if String.eqb s s0 then Some v else Js.get s inner)
    else nestedGet m k s.
Proof.
  intro G. unfold nestedGet.
  destruct (String.eqb k k0) eqn:Ek.
  - apply String.eqb_eq in Ek. subst k0. rewrite get_set_same.
    destruct (String.eqb s s0) eqn:Es.
    + apply String.eqb_eq in Es. subst s0. apply get_set_same.
    + apply String.eqb_neq in Es. now apply get_set_other.
  - apply String.eqb_neq in Ek. now rewrite get_set_other.
Qed.

Lemma nestedGetOrZero_nestedGet (m : NestedMap) (k s : string) :
  nestedGetOrZero m k s = Js.orZero (nestedGet m k s).
Proof. reflexivity. Qed.

(** A loop whose steps each add [delta x] to a measure of the state adds
    the sum of the [delta x]. *)
Lemma forEach_additive {A S} (f : S -> A -> Js.completion S)
    (measure : S -> Q) (delta : A -> Q) :
  (forall s x s', f s x = Js.Return s' -> measure s' == measure s + delta x) ->
  forall xs s s',
    Js.forEach f xs s = Js.Return s' ->
    measure s' == measure s + Qsum (map delta xs).
Proof.
  intros step xs. induction xs as [|x xs IH]; intros s s' E; simpl in *.
  - inversion E. subst. ring.
  - destruct (f s x) as [s1|] eqn:F; simpl in E; [|discriminate].
    rewrite (IH _ _ E), (step _ _ _ F). ring.
Qed.

Lemma Qsum_if_filter {A} (p : A -> bool) (f : A -> Q) (l : list A) :
  Qsum (map (fun x => if p x then f x else 0) l) == Qsum (map f (filter p l)).
Proof.
  induction l as [|x l IH]; simpl; [reflexivity|].
  destruct (p x); simpl; rewrite IH; ring.
Qed.

Lemma Qsum_zero {A} (f : A -> Q) (l : list A) :
  (forall x, In x l -> f x == 0) -> Qsum (map f l) == 0.
Proof.
  induction l as [|x l IH]; intro H; simpl; [reflexivity|].
  rewrite (H x (or_introl eq_refl)), IH; [ring|].
  intros y Hy. apply H. now right.
Qed.

(** ** calculateMemberShares: the share counts, read off the ledger *)

Lemma addAllocationShares_adds t sm a sm' (k s : string) :
  addAllocationShares t sm a = Js.Return sm' ->
  nestedGetOrZero sm' k s
  == nestedGetOrZero sm k s
     + (if String.eqb (TransactionAllocation.member_id a) k
           && String.eqb (Transaction.stock_id t) s
        then signedShares t a else 0).
Proof.
  unfold addAllocationShares.
  destruct (Js.get (TransactionAllocation.member_id a) sm) as [inner|] eqn:G;
    [|discriminate].
  intro E. inversion E. subst sm'. clear E.
  rewrite !nestedGetOrZero_nestedGet.
  rewrite (nestedGet_update sm _ _ inner _ k s G).
  rewrite (String.eqb_sym (TransactionAllocation.member_id a) k).
  rewrite (String.eqb_sym (Transaction.stock_id t) s).
  destruct (String.eqb k (TransactionAllocation.member_id a)) eqn:Ek; simpl andb.
  - apply String.eqb_eq in Ek. subst k.
    assert (N : nestedGet sm (TransactionAllocation.member_id a) s
                = Js.get s inner) by (unfold nestedGet; now rewrite G).
    destruct (String.eqb s (Transaction.stock_id t)) eqn:Es.
    + apply String.eqb_eq in Es. subst s. rewrite N, orZero_Some.
      unfold signedShares. destruct (Transaction.type t); ring.
    + rewrite N. ring.
  - cbv iota. ring.
Qed.

Lemma transaction_adds t allocs sm sm' (k s : string) :
  Js.forEach (addAllocationShares t) allocs sm = Js.Return sm' ->
  nestedGetOrZero sm' k s
  == nestedGetOrZero sm k s
     + Qsum (map (fun a =>
                    if String.eqb (TransactionAllocation.member_id a) k
                       && String.eqb (Transaction.stock_id t) s
                    then signedShares t a else 0) allocs).
Proof.
  apply (forEach_additive (addAllocationShares t)
           (fun m => nestedGetOrZero m k s)).
  intros m a m'. apply addAllocationShares_adds.
Qed.

Lemma initial_sharesMap_empty (ms : list FamilyMember.t) (acc : NestedMap) :
  (forall k inner, Js.get k acc = Some inner -> inner = []) ->
  forall k inner,
    Js.get k (fold_left (fun sharesMap member =>
                           Js.set (FamilyMember.id member) [] sharesMap)
                        ms acc) = Some inner ->
    inner = [].
Proof.
  revert acc. induction ms as [|m ms IH]; intros acc H; simpl; [exact H|].
  apply IH. intros k inner.
  destruct (string_dec k (FamilyMember.id m)) as [->|N].
  - rewrite get_set_same. congruence.
  - rewrite get_set_other by exact N. apply H.
Qed.

Lemma nestedGetOrZero_empty (m : NestedMap) (k s : string) :
  (forall k inner, Js.get k m = Some inner -> inner = []) ->
  nestedGetOrZero m k s = 0.
Proof.
  intro H. unfold nestedGetOrZero.
  destruct (Js.get k m) as [inner|] eqn:G; [|reflexivity].
  now rewrite (H k inner G).
Qed.

Lemma transaction_share_delta data t (k s : string) :
  Qsum (map (fun a =>
               if String.eqb (TransactionAllocation.member_id a) k
                  && String.eqb (Transaction.stock_id t) s
               then signedShares t a else 0) (allocationsOf data t))
  == (if String.eqb (Transaction.stock_id t) s
      then Qsum (map (signedShares t)
                     (filter (fun a =>
                                String.eqb (TransactionAllocation.member_id a) k)
                             (allocationsOf data t)))
      else 0).
Proof.
  destruct (String.eqb (Transaction.stock_id t) s).
  - rewrite <- Qsum_if_filter. apply Qsum_ext. intros a _.
    now rewrite andb_true_r.
  - apply Qsum_zero. intros a _. now rewrite andb_false_r.
Qed.

(** The share count that [calculateMemberShares] reports for a member and
    a security is the sum, over the transactions of the security and the
    member's allocations of each, of quantity × percentage, counted
    negative for a sale. *)
Lemma memberShares_closed_form (data : CalculationData) sm
    (memberId stockId : string) :
  calculateMemberShares data = Js.Return sm ->
  nestedGetOrZero sm memberId stockId == netShares data memberId stockId.
Proof.
  unfold calculateMemberShares. intro E. cbv zeta in E.
  match type of E with Js.forEach ?f _ ?s0 = _ =>
    set (sm0 := s0) in *;
    pose proof (forEach_additive f
      (fun m => nestedGetOrZero m memberId stockId)
      (fun t => Qsum (map (fun a =>
                    if String.eqb (TransactionAllocation.member_id a) memberId
                       && String.eqb (Transaction.stock_id t) stockId
                    then signedShares t a else 0) (allocationsOf data t)))
      (fun m t m' => transaction_adds t _ m m' memberId stockId)
      _ _ _ E) as H
  end.
  cbv beta in H.
  assert (Z : nestedGetOrZero sm0 memberId stockId = 0).
  { apply nestedGetOrZero_empty. subst sm0.
    apply initial_sharesMap_empty. intros k inner'. discriminate. }
  rewrite H, Z, Qplus_0_l. unfold netShares.
  rewrite <- Qsum_if_filter. apply Qsum_ext. intros t _.
  apply transaction_share_delta.
Qed.

(** On a snapshot whose allocations name members of the snapshot,
    [calculateMemberShares] returns, and the share count it reports for
    any member and security is the sum, over the transactions of the
    security and the member's allocations of each, of quantity ×
    percentage, counted negative for a sale. *)
Theorem calculateMemberShares_net_shares (data : CalculationData) :
  memberRefsResolve data = true ->
  exists sm,
    calculateMemberShares data = Js.Return sm
    /\ forall memberId stockId,
         nestedGetOrZero sm memberId stockId
         == netShares data memberId stockId.
Proof.
  intro R. destruct (calculateMemberShares_returns data R) as [sm [E _]].
  exists sm. split; [exact E|].
  intros memberId stockId. now apply memberShares_closed_form.
Qed.

Lemma calculateMemberShares_net_shares_witness :
  exists sm,
    calculateMemberShares Example.shortSeller = Js.Return sm
    /\ nestedGetOrZero sm "B" "X" == -5.
Proof.
  destruct (calculateMemberShares_net_shares Example.shortSeller eq_refl)
    as [sm [E H]].
  exists sm. split; [exact E|]. rewrite H. vm_compute. reflexivity.
Defined.

(** ** calculateCostBasis: the cost bases, read off the ledger *)

(** Creating the empty entry of a member changes no cost basis. *)
Lemma nestedGet_fresh_entry (m : NestedMap) (k0 k s : string) :
  Js.get k0 m = None ->
  nestedGet (Js.set k0 [] m) k s = nestedGet m k s.
Proof.
  intro G. unfold nestedGet.
  destruct (string_dec k k0) as [->|N].
  - now rewrite get_set_same, G.
  - now rewrite get_set_other.
Qed.

(** The first amount recorded for a member. *)
Lemma nestedGet_first_update (m : NestedMap) (k0 s0 : string) (v : Q)
    (k s : string) :
  nestedGet (@Js.set (Js.Map Q) k0 [(s0, v)]
               (@Js.set (list (string * Q)) k0 [] m)) k s
  = if String.eqb k k0
    then (if String.eqb s s0 then Some v else None)
    else nestedGet (Js.set k0 [] m) k s.
Proof.
  exact (nestedGet_update (Js.set k0 [] m) k0 s0 [] v k s
           (get_set_same _ _ _)).
Qed.

Lemma addAllocationCost_adds data m a m' (k s : string) :
  addAllocationCost data m a = Js.Return m' ->
  nestedGetOrZero m' k s
  == nestedGetOrZero m k s
     + (if String.eqb (TransactionAllocation.member_id a) k
        then signedCost data s a else 0).
Proof.
  unfold addAllocationCost, signedCost, transactionOf.
  destruct (find _ (transactions data)) as [t|].
  2:{ intro E. inversion E. subst.
      destruct (String.eqb _ k); ring. }
  cbv zeta. unfold Js.has.
  destruct (Js.get (TransactionAllocation.member_id a) m) as [inner|] eqn:G;
    cbn [negb].
  - match goal with
    | |- match ?g with Some _ => _ | None => _ end = _ -> _ =>
        replace g with (Some inner) by (symmetry; exact G)
    end. intro E. inversion E. subst m'. clear E.
    rewrite !nestedGetOrZero_nestedGet.
    rewrite (nestedGet_update m _ _ inner _ k s G).
    rewrite (String.eqb_sym (TransactionAllocation.member_id a) k).
    rewrite (String.eqb_sym (Transaction.stock_id t) s).
    destruct (String.eqb k (TransactionAllocation.member_id a)) eqn:Ek.
    + apply String.eqb_eq in Ek. subst k.
      assert (N : nestedGet m (TransactionAllocation.member_id a) s
                  = Js.get s inner) by (unfold nestedGet; now rewrite G).
      rewrite N.
      destruct (String.eqb s (Transaction.stock_id t)) eqn:Es.
      * apply String.eqb_eq in Es. subst s. rewrite orZero_Some.
        destruct (Transaction.type t); ring.
      * ring.
    + ring.
  - rewrite get_set_same. cbv beta iota. intro E. injection E as <-.
    rewrite !nestedGetOrZero_nestedGet.
    rewrite nestedGet_first_update.
    rewrite (String.eqb_sym (TransactionAllocation.member_id a) k).
    rewrite (String.eqb_sym (Transaction.stock_id t) s).
    destruct (String.eqb k (TransactionAllocation.member_id a)) eqn:Ek.
    + apply String.eqb_eq in Ek. subst k.
      assert (N : nestedGet m (TransactionAllocation.member_id a) s = None)
        by (unfold nestedGet; now rewrite G).
      rewrite N.
      destruct (String.eqb s (Transaction.stock_id t)) eqn:Es.
      * apply String.eqb_eq in Es. subst s. cbv iota. rewrite orZero_Some.
        simpl. destruct (Transaction.type t); ring.
      * simpl. ring.
    + rewrite (nestedGet_fresh_entry m _ k s G). ring.
Qed.

(** The cost basis that [calculateCostBasis] reports for a member and a
    security is the sum of the member's allocation amounts on purchases of
    the security minus those on its sales, each allocation being counted
    for the first transaction with its transaction_id; allocations without
    a transaction count for nothing. *)
Lemma costBasis_closed_form (data : CalculationData) costBasis
    (memberId stockId : string) :
  calculateCostBasis data = Js.Return costBasis ->
  nestedGetOrZero costBasis memberId stockId == netCost data memberId stockId.
Proof.
  unfold calculateCostBasis. intro E.
  rewrite (forEach_additive (addAllocationCost data)
             (fun m => nestedGetOrZero m memberId stockId)
             (fun a => if String.eqb (TransactionAllocation.member_id a) memberId
                       then signedCost data stockId a else 0)
             (fun m a m' => addAllocationCost_adds data m a m' memberId stockId)
             _ _ _ E).
  unfold netCost. rewrite Qsum_if_filter.
  change (nestedGetOrZero [] memberId stockId) with 0. ring.
Qed.

(** [calculateCostBasis] returns on every snapshot, and the cost basis it
    reports for any member id and security is the sum of the amounts of
    the allocations with that member id on purchases of the security minus
    those on its sales; an allocation counts for the first transaction
    with its transaction_id and for nothing when there is none. *)
Theorem calculateCostBasis_net_cost (data : CalculationData) :
  exists costBasis,
    calculateCostBasis data = Js.Return costBasis
    /\ forall memberId stockId,
         nestedGetOrZero costBasis memberId stockId
         == netCost data memberId stockId.
Proof.
  destruct (calculateCostBasis_returns data) as [cb E].
  exists cb. split; [exact E|].
  intros memberId stockId. now apply costBasis_closed_form.
Qed.

(** ** The members' shares add up to the traded quantity *)

Lemma Qsum_exchange {A B} (g : A -> B -> Q) (la : list A) (lb : list B) :
  Qsum (map (fun a => Qsum (map (g a) lb)) la)
  == Qsum (map (fun b => Qsum (map (fun a => g a b) la)) lb).
Proof.
  induction la as [|a la IH]; simpl.
  - symmetry. apply Qsum_zero. intros b _. reflexivity.
  - rewrite IH. symmetry.
    apply (Qsum_plus (fun b => g a b)
                     (fun b => Qsum (map (fun a0 => g a0 b) la))).
Qed.

(** Among distinct keys exactly one is the given one. *)
Lemma Qsum_indicator (K : list string) (x : string) (v : Q) :
  NoDup K -> In x K ->
  Qsum (map (fun k => if String.eqb x k then v else 0) K) == v.
Proof.
  induction 1 as [|k K Hk N IH]; intro Hx; [inversion Hx|]. simpl.
  destruct (String.eqb x k) eqn:E.
  - apply String.eqb_eq in E. subst k.
    rewrite Qsum_zero; [ring|].
    intros k' Hk'. destruct (String.eqb x k') eqn:E'; [|reflexivity].
    apply String.eqb_eq in E'. subst. contradiction.
  - destruct Hx as [->|Hx]; [now rewrite String.eqb_refl in E|].
    rewrite (IH Hx). ring.
Qed.

Lemma signedShares_sum t (l : list TransactionAllocation.t) :
  Qsum (map (signedShares t) l)
  == match Transaction.type t with
     | buy => Transaction.quantity t
     | sell => - Transaction.quantity t
     end * Qsum (map TransactionAllocation.percentage l).
Proof.
  induction l as [|a l IH]; simpl.
  - destruct (Transaction.type t); ring.
  - rewrite IH. unfold signedShares. destruct (Transaction.type t); ring.
Qed.

Lemma memberRefsResolve_In data t a :
  memberRefsResolve data = true ->
  In t (transactions data) -> In a (allocationsOf data t) ->
  In (TransactionAllocation.member_id a) (memberIds data).
Proof.
  unfold memberRefsResolve, transactionResolved. intros R Ht Ha.
  rewrite forallb_forall in R. specialize (R t Ht).
  rewrite forallb_forall in R. apply memberKnown_In. now apply R.
Qed.

(** The total of the members' share counts of a security, whatever the
    percentages are. *)
Lemma total_shares_of_ledger data sm (stockId : string) :
  memberRefsResolve data = true ->
  calculateMemberShares data = Js.Return sm ->
  Qsum (map (fun k => nestedGetOrZero sm k stockId) (Js.keys sm))
  == Qsum (map (fun t => Qsum (map (signedShares t) (allocationsOf data t)))
               (filter (fun t => String.eqb (Transaction.stock_id t) stockId)
                       (transactions data))).
Proof.
  intros R E.
  destruct (calculateMemberShares_Return_inv data sm E) as [_ [N K]].
  rewrite (Qsum_ext _ (fun k => netShares data k stockId))
    by (intros k _; now apply memberShares_closed_form).
  unfold netShares.
  rewrite (Qsum_exchange
             (fun k t => Qsum (map (signedShares t)
                (filter (fun a => String.eqb (TransactionAllocation.member_id a) k)
                        (allocationsOf data t))))).
  apply Qsum_ext. intros t Ht. apply filter_In in Ht. destruct Ht as [Ht _].
  rewrite (Qsum_ext _ (fun k => Qsum (map (fun a =>
             if String.eqb (TransactionAllocation.member_id a) k
             then signedShares t a else 0) (allocationsOf data t))))
    by (intros k _; symmetry; apply Qsum_if_filter).
  rewrite (Qsum_exchange
             (fun k a => if String.eqb (TransactionAllocation.member_id a) k
                         then signedShares t a else 0)).
  apply Qsum_ext. intros a Ha.
  apply Qsum_indicator; [exact N|].
  apply K. now apply (memberRefsResolve_In data t a).
Qed.

(** When the percentages of the allocations of every transaction of a
    security sum to 1, the members' share counts of the security sum to the
    quantity bought minus the quantity sold. *)
Theorem shares_sum_to_net_quantity (data : CalculationData) (stockId : string) :
  memberRefsResolve data = true ->
  (forall t, In t (transactions data) -> Transaction.stock_id t = stockId ->
     Qsum (map TransactionAllocation.percentage (allocationsOf data t)) == 1) ->
  exists sm,
    calculateMemberShares data = Js.Return sm
    /\ Qsum (map (fun k => nestedGetOrZero sm k stockId) (Js.keys sm))
       == netQuantity data stockId.
Proof.
  intros R P.
  destruct (calculateMemberShares_returns data R) as [sm [E _]].
  exists sm. split; [exact E|].
  rewrite (total_shares_of_ledger data sm stockId R E).
  unfold netQuantity. apply Qsum_ext. intros t Ht.
  apply filter_In in Ht. destruct Ht as [Ht S]. apply String.eqb_eq in S.
  rewrite signedShares_sum, (P t Ht S). ring.
Qed.

Lemma shares_sum_to_net_quantity_witness :
  exists sm,
    calculateMemberShares Example.shortSeller = Js.Return sm
    /\ Qsum (map (fun k => nestedGetOrZero sm k "X") (Js.keys sm)) == 5.
Proof.
  destruct (shares_sum_to_net_quantity Example.shortSeller "X" eq_refl)
    as [sm [E S]].
  - intros t [<-|[<-|[]]] _; vm_compute; reflexivity.
  - exists sm. split; [exact E|]. rewrite S. vm_compute. reflexivity.
Defined.

(** ** A proposal never distributes less than the sale *)

Lemma Qsum_positive_part_ge {A} (f : A -> Q) (l : list A) :
  Qsum (map f l) <= Qsum (map f (filter (fun x => Js.gt0 (f x)) l)).
Proof.
  induction l as [|x l IH]; simpl; [apply Qle_refl|].
  destruct (Js.gt0 (f x)) eqn:G; simpl.
  - now apply Qplus_le_r.
  - apply gt0_false in G.
    apply Qle_trans with (0 + Qsum (map f l)).
    + now apply Qplus_le_l.
    + now rewrite Qplus_0_l.
Qed.

Lemma Qdiv_pos (a b : Q) : 0 < a -> 0 < b -> 0 < a / b.
Proof.
  intros Ha Hb. apply Qlt_shift_div_l; [exact Hb|]. now rewrite Qmult_0_l.
Qed.

(** When the members' share counts of the security total a strictly
    positive number, every proposed percentage is strictly positive and
    the percentages sum to at least 1: with a member whose count is
    negative the proposal distributes more than the sale, never less. *)
Theorem calculateSellAllocations_at_least_whole
    (stockId : string) (quantity pricePerShare : Q) (data : CalculationData) :
  memberRefsResolve data = true ->
  exists memberShares result,
    calculateMemberShares data = Js.Return memberShares
    /\ calculateSellAllocations stockId quantity pricePerShare data
       = Js.Return result
    /\ (0 < Qsum (map (fun id => nestedGetOrZero memberShares id stockId)
                      (Js.keys memberShares)) ->
        exists ps,
          Forall2 Js.equals (map SellAllocation.percentage result) ps
          /\ Forall (fun p => 0 < p) ps
          /\ 1 <= Qsum ps).
Proof.
  intro R.
  destruct (calculateMemberShares_returns data R) as [sm [E [N K]]].
  destruct (calculateSellAllocations_result stockId quantity pricePerShare
              data sm E) as [ts [T Er]].
  cbv zeta in T.
  eexists sm, _. split; [exact E|]. split; [exact Er|].
  intro G. rewrite <- T in G.
  assert (NZ : ~ ts == 0) by now apply Qlt_0_neq.
  destruct (Qeq_bool ts 0) eqn:B; [apply Qeq_bool_iff in B; contradiction|].
  set (held := filter (holdsShares stockId) sm).
  exists (map (fun e => sharesOf stockId (snd e) / ts) held).
  rewrite map_map. split; [|split].
  - apply Forall2_map_pointwise. intros e _.
    unfold proposedAllocation. simpl. rewrite div_finite by exact NZ.
    simpl. reflexivity.
  - apply Forall_forall. intros p Hp. apply in_map_iff in Hp.
    destruct Hp as [e [<- He]]. subst held. apply filter_In in He.
    destruct He as [_ He]. apply gt0_true in He. now apply Qdiv_pos.
  - rewrite Qsum_quotients. apply Qle_shift_div_l; [exact G|].
    rewrite Qmult_1_l. subst held. unfold holdsShares.
    eapply Qle_trans;
      [|apply (Qsum_positive_part_ge (fun e => sharesOf stockId (snd e)) sm)].
    rewrite T, shares_by_key by exact N. apply Qle_refl.
Qed.

Lemma calculateSellAllocations_at_least_whole_witness :
  exists result ps,
    calculateSellAllocations "X" 5 120 Example.shortSeller = Js.Return result
    /\ Forall2 Js.equals (map SellAllocation.percentage result) ps
    /\ 1 <= Qsum ps.
Proof.
  destruct (calculateSellAllocations_at_least_whole "X" 5 120
              Example.shortSeller eq_refl) as [sm [result [Es [Er H]]]].
  vm_compute in Es. inversion Es. subst sm. clear Es.
  destruct H as [ps [F [_ S]]].
  - vm_compute. reflexivity.
  - exists result, ps. auto.
Defined.

(** ** A snapshot without members *)

(** Without members the summary is the record of zeros with an empty
    breakdown, unless some allocation belongs to a transaction of the
    snapshot: then the call fails with a TypeError. *)
Theorem calculatePortfolioSummary_no_members (data : CalculationData) :
  members data = [] ->
  calculatePortfolioSummary data
  = if memberRefsResolve data
    then Js.Return
           {| PortfolioSummary.totalValue := 0;
              PortfolioSummary.totalCostBasis := 0;
              PortfolioSummary.totalGainLoss := 0;
              PortfolioSummary.totalGainLossPercentage := Js.Fin 0;
              PortfolioSummary.totalCash := 0;
              PortfolioSummary.memberBreakdown := [] |}
    else Js.Throw Js.TypeError.
Proof.
  intro M. destruct (memberRefsResolve data) eqn:R.
  - destruct (calculateMemberShares_returns data R) as [sm [E _]].
    destruct (calculateCostBasis_returns data) as [cb Ec].
    unfold calculatePortfolioSummary. rewrite E, Ec, M. reflexivity.
  - now apply calculatePortfolioSummary_throws.
Qed.

Lemma calculatePortfolioSummary_no_members_witness :
  calculatePortfolioSummary
    {| members := []; contributions := contributions Example.scenario;
       stocks := stocks Example.scenario;
       transactions := transactions Example.scenario;
       allocations := allocations Example.scenario |}
  = Js.Throw Js.TypeError.
Proof.
  exact (calculatePortfolioSummary_no_members
           {| members := []; contributions := contributions Example.scenario;
              stocks := stocks Example.scenario;
              transactions := transactions Example.scenario;
              allocations := allocations Example.scenario |} eq_refl).
Defined.

(** ** The transactions of other securities do not matter to a security *)

(** A loop whose steps each transform an observation of the state by
    [F x] transforms it by the composition of the [F x]. *)
Lemma forEach_replay {A S V} (f : S -> A -> Js.completion S)
    (obs : S -> V) (F : A -> V -> V) :
  (forall s x s', f s x = Js.Return s' -> obs s' = F x (obs s)) ->
  forall xs s s',
    Js.forEach f xs s = Js.Return s' ->
    obs s' = fold_left (fun v x => F x v) xs (obs s).
Proof.
  intros step xs. induction xs as [|x xs IH]; intros s s' E; simpl in *.
  - now inversion E.
  - destruct (f s x) as [s1|] eqn:E1; simpl in E; [|discriminate].
    rewrite (IH _ _ E). now rewrite (step _ _ _ E1).
Qed.

Lemma fold_left_filter_skip {A V} (F : V -> A -> V) (p : A -> bool) :
  (forall x v, p x = false -> F v x = v) ->
  forall xs v, fold_left F (filter p xs) v = fold_left F xs v.
Proof.
  intros skip xs. induction xs as [|x xs IH]; intro v; simpl; [reflexivity|].
  destruct (p x) eqn:E; simpl; [apply IH|].
  rewrite (skip x v E). apply IH.
Qed.

Lemma fold_left_pointwise {A V} (F G : V -> A -> V) :
  (forall v x, F v x = G v x) ->
  forall xs v, fold_left F xs v = fold_left G xs v.
Proof.
  intros H xs. induction xs as [|x xs IH]; intro v; simpl; [reflexivity|].
  now rewrite H, IH.
Qed.

Lemma addAllocationShares_updates t sm a sm' (k s : string) :
  addAllocationShares t sm a = Js.Return sm' ->
  nestedGet sm' k s = shareUpdate k s t a (nestedGet sm k s).
Proof.
  unfold addAllocationShares, shareUpdate.
  destruct (Js.get (TransactionAllocation.member_id a) sm) as [inner|] eqn:G;
    [|discriminate].
  intro E. injection E as <-.
  rewrite (nestedGet_update sm _ _ inner _ k s G).
  rewrite (String.eqb_sym (TransactionAllocation.member_id a) k).
  rewrite (String.eqb_sym (Transaction.stock_id t) s).
  destruct (String.eqb k (TransactionAllocation.member_id a)) eqn:Ek;
    [|reflexivity].
  apply String.eqb_eq in Ek. subst k.
  assert (N : nestedGet sm (TransactionAllocation.member_id a) s
              = Js.get s inner) by (unfold nestedGet; now rewrite G).
  destruct (String.eqb s (Transaction.stock_id t)) eqn:Es; simpl.
  - apply String.eqb_eq in Es. subst s. rewrite N.
    destruct (Transaction.type t); reflexivity.
  - now rewrite N.
Qed.

(** The share count of member [k] and security [s] after the loops of
    [calculateMemberShares], as a replay of the ledger. *)
Lemma memberShares_replay data sm (k s : string) :
  calculateMemberShares data = Js.Return sm ->
  nestedGet sm k s
  = fold_left (fun v t => fold_left (fun v a => shareUpdate k s t a v)
                                    (allocationsOf data t) v)
              (transactions data)
              (nestedGet
                 (fold_left (fun sharesMap member =>
                               Js.set (FamilyMember.id member) [] sharesMap)
                            (members data) ([] : NestedMap)) k s).
Proof.
  unfold calculateMemberShares. cbv zeta. intro E.
  apply (forEach_replay _ (fun m : NestedMap => nestedGet m k s)
           (fun t v => fold_left (fun v a => shareUpdate k s t a v)
                                 (allocationsOf data t) v)) in E;
    [exact E|].
  intros m t m' Et.
  apply (forEach_replay _ (fun m : NestedMap => nestedGet m k s)
           (fun a v => shareUpdate k s t a v)) in Et; [exact Et|].
  intros m1 a m2. apply addAllocationShares_updates.
Qed.

Lemma shareUpdate_other_stock (k s : string) t (l : list TransactionAllocation.t)
    (v : option Q) :
  String.eqb (Transaction.stock_id t) s = false ->
  fold_left (fun v a => shareUpdate k s t a v) l v = v.
Proof.
  intro N. induction l as [|a l IH]; simpl; [reflexivity|].
  unfold shareUpdate at 2. now rewrite N, andb_false_r.
Qed.

Lemma memberShares_withTransactionsOf data sm sm' (k s : string) :
  calculateMemberShares data = Js.Return sm ->
  calculateMemberShares (withTransactionsOf s data) = Js.Return sm' ->
  nestedGet sm' k s = nestedGet sm k s.
Proof.
  intros E E'.
  rewrite (memberShares_replay data sm k s E).
  rewrite (memberShares_replay _ sm' k s E').
  change (members (withTransactionsOf s data)) with (members data).
  change (transactions (withTransactionsOf s data))
    with (filter (fun t => String.eqb (Transaction.stock_id t) s)
                 (transactions data)).
  erewrite fold_left_pointwise;
    [apply fold_left_filter_skip|reflexivity].
  intros t v N. now apply shareUpdate_other_stock.
Qed.

Lemma memberRefsResolve_withTransactionsOf data (s : string) :
  memberRefsResolve data = true ->
  memberRefsResolve (withTransactionsOf s data) = true.
Proof.
  unfold memberRefsResolve. intro R.
  change (transactions (withTransactionsOf s data))
    with (filter (fun t => String.eqb (Transaction.stock_id t) s)
                 (transactions data)).
  rewrite forallb_forall in *. intros t Ht. apply filter_In in Ht.
  change (transactionResolved (withTransactionsOf s data) t)
    with (transactionResolved data t).
  apply R. tauto.
Qed.

Lemma addAllocationCost_updates data m a m' (k s : string) :
  addAllocationCost data m a = Js.Return m' ->
  nestedGet m' k s = costUpdate data k s a (nestedGet m k s).
Proof.
  unfold addAllocationCost, costUpdate, transactionOf.
  destruct (find _ (transactions data)) as [t|];
    [|intro E; now injection E as <-].
  cbv zeta. unfold Js.has.
  rewrite (String.eqb_sym (TransactionAllocation.member_id a) k).
  rewrite (String.eqb_sym (Transaction.stock_id t) s).
  destruct (Js.get (TransactionAllocation.member_id a) m) as [inner|] eqn:G;
    cbn [negb].
  - match goal with
    | |- match ?g with Some _ => _ | None => _ end = _ -> _ =>
        replace g with (Some inner) by (symmetry; exact G)
    end.
    intro E. injection E as <-.
    rewrite (nestedGet_update m _ _ inner _ k s G).
    destruct (String.eqb k (TransactionAllocation.member_id a)) eqn:Ek;
      [|reflexivity].
    apply String.eqb_eq in Ek. subst k.
    assert (N : nestedGet m (TransactionAllocation.member_id a) s
                = Js.get s inner) by (unfold nestedGet; now rewrite G).
    destruct (String.eqb s (Transaction.stock_id t)) eqn:Es; simpl.
    + apply String.eqb_eq in Es. subst s. rewrite N.
      destruct (Transaction.type t); reflexivity.
    + now rewrite N.
  - rewrite get_set_same. cbv beta iota. intro E. injection E as <-.
    rewrite nestedGet_first_update.
    destruct (String.eqb k (TransactionAllocation.member_id a)) eqn:Ek.
    + apply String.eqb_eq in Ek. subst k.
      assert (N : nestedGet m (TransactionAllocation.member_id a) s = None)
        by (unfold nestedGet; now rewrite G).
      destruct (String.eqb s (Transaction.stock_id t)) eqn:Es; simpl.
      * rewrite N. destruct (Transaction.type t); reflexivity.
      * now rewrite N.
    + simpl. now apply nestedGet_fresh_entry.
Qed.

Lemma costBasis_replay data cb (k s : string) :
  calculateCostBasis data = Js.Return cb ->
  nestedGet cb k s
  = fold_left (fun v a => costUpdate data k s a v) (allocations data) None.
Proof.
  unfold calculateCostBasis. intro E.
  apply (forEach_replay _ (fun m : NestedMap => nestedGet m k s)
           (fun a v => costUpdate data k s a v)) in E; [exact E|].
  intros m a m'. apply addAllocationCost_updates.
Qed.

Lemma find_None_forall {A} (p : A -> bool) (l : list A) :
  (forall x, In x l -> p x = false) -> find p l = None.
Proof.
  induction l as [|x l IH]; intro H; simpl; [reflexivity|].
  rewrite (H x (or_introl eq_refl)). apply IH. intros y Hy. apply H. now right.
Qed.

(** With distinct transaction ids, looking an id up among the transactions
    of one security finds the transaction of that id when it is of that
    security, and nothing otherwise. *)
Lemma find_withTransactionsOf (ts : list Transaction.t) (s x : string) :
  NoDup (map Transaction.id ts) ->
  find (fun t => String.eqb (Transaction.id t) x)
       (filter (fun t => String.eqb (Transaction.stock_id t) s) ts)
  = match find (fun t => String.eqb (Transaction.id t) x) ts with
    | Some t => if String.eqb (Transaction.stock_id t) s then Some t else None
    | None => None
    end.
Proof.
  induction ts as [|t ts IH]; intro N; simpl; [reflexivity|].
  inversion N as [|? ? Hn N']; subst.
  destruct (String.eqb (Transaction.id t) x) eqn:Ex.
  - apply String.eqb_eq in Ex.
    destruct (String.eqb (Transaction.stock_id t) s) eqn:Es; simpl.
    + apply String.eqb_eq in Ex. now rewrite Ex.
    + apply find_None_forall. intros t' Ht'. apply filter_In in Ht'.
      apply String.eqb_neq. intro Ex'. apply Hn. rewrite Ex, <- Ex'.
      apply in_map. tauto.
  - destruct (String.eqb (Transaction.stock_id t) s) eqn:Es; simpl.
    + rewrite Ex. now apply IH.
    + now apply IH.
Qed.

Lemma costUpdate_withTransactionsOf data (k s : string) a v :
  NoDup (map Transaction.id (transactions data)) ->
  costUpdate (withTransactionsOf s data) k s a v = costUpdate data k s a v.
Proof.
  intro N. unfold costUpdate, transactionOf.
  change (transactions (withTransactionsOf s data))
    with (filter (fun t => String.eqb (Transaction.stock_id t) s)
                 (transactions data)).
  rewrite (find_withTransactionsOf _ s _ N).
  destruct (find _ (transactions data)) as [t|]; [|reflexivity].
  destruct (String.eqb (Transaction.stock_id t) s) eqn:Es.
  - now rewrite Es.
  - now rewrite andb_false_r.
Qed.

Lemma costBasis_withTransactionsOf data cb cb' (k s : string) :
  NoDup (map Transaction.id (transactions data)) ->
  calculateCostBasis data = Js.Return cb ->
  calculateCostBasis (withTransactionsOf s data) = Js.Return cb' ->
  nestedGet cb' k s = nestedGet cb k s.
Proof.
  intros N E E'.
  rewrite (costBasis_replay data cb k s E).
  rewrite (costBasis_replay _ cb' k s E').
  change (allocations (withTransactionsOf s data)) with (allocations data).
  apply fold_left_pointwise. intros v a.
  now apply costUpdate_withTransactionsOf.
Qed.

(** The ownership of a security computed from the transactions of that
    security alone, as its page fetches them, is the ownership computed
    from all transactions, provided the transaction ids are distinct. *)
Theorem calculateStockWithOwnership_own_transactions
    (stock : Stock.t) (data : CalculationData) :
  memberRefsResolve data = true ->
  NoDup (map Transaction.id (transactions data)) ->
  exists r,
    calculateStockWithOwnership stock data = Js.Return r
    /\ calculateStockWithOwnership stock
         (withTransactionsOf (Stock.id stock) data) = Js.Return r.
Proof.
  intros R N.
  destruct (calculateStockWithOwnership_returns stock data R) as [r Er].
  exists r. split; [exact Er|]. rewrite <- Er.
  pose proof (memberRefsResolve_withTransactionsOf data (Stock.id stock) R)
    as R'.
  destruct (calculateMemberShares_returns data R) as [sm [E _]].
  destruct (calculateMemberShares_returns _ R') as [sm' [E' _]].
  destruct (calculateCostBasis_returns data) as [cb Ec].
  destruct (calculateCostBasis_returns
              (withTransactionsOf (Stock.id stock) data)) as [cb' Ec'].
  unfold calculateStockWithOwnership. rewrite E, E', Ec, Ec'. simpl.
  change (members (withTransactionsOf (Stock.id stock) data))
    with (members data).
  rewrite (fold_left_pointwise
             (addMemberOwnership stock sm' cb')
             (addMemberOwnership stock sm cb)); [reflexivity|].
  intros [[ts tc] mo] member. unfold addMemberOwnership.
  rewrite !nestedGetOrZero_nestedGet.
  rewrite (memberShares_withTransactionsOf data sm sm' _ _ E E').
  now rewrite (costBasis_withTransactionsOf data cb cb' _ _ N Ec Ec').
Qed.

Lemma calculateStockWithOwnership_own_transactions_witness :
  exists r,
    calculateStockWithOwnership (Example.stock "X" (Some 120))
      Example.unknownSecurity = Js.Return r
    /\ calculateStockWithOwnership (Example.stock "X" (Some 120))
         (withTransactionsOf "X" Example.unknownSecurity) = Js.Return r.
Proof.
  apply (calculateStockWithOwnership_own_transactions
           (Example.stock "X" (Some 120)) Example.unknownSecurity eq_refl).
  repeat constructor; simpl; intuition discriminate.
Defined.

(** ** calculateOwnershipPercentages *)

Lemma forEach_invariant {A S} (f : S -> A -> Js.completion S) (P : S -> Prop) :
  (forall s x s', P s -> f s x = Js.Return s' -> P s') ->
  forall xs s s', P s -> Js.forEach f xs s = Js.Return s' -> P s'.
Proof.
  intros step xs. induction xs as [|x xs IH]; intros s s' Ps E; simpl in E.
  - inversion E. now subst.
  - destruct (f s x) as [s1|] eqn:E1; simpl in E; [|discriminate].
    exact (IH _ _ (step _ _ _ Ps E1) E).
Qed.

(** The maps of the members have no repeated security. *)
Lemma memberShares_inner_NoDup data sm :
  calculateMemberShares data = Js.Return sm ->
  forall k inner, Js.get k sm = Some inner -> NoDup (Js.keys inner).
Proof.
  unfold calculateMemberShares. cbv zeta. intro E.
  refine (forEach_invariant _
            (fun m : NestedMap =>
               forall k inner, Js.get k m = Some inner -> NoDup (Js.keys inner))
            _ _ _ _ _ E).
  - intros m t m' Pm Et.
    refine (forEach_invariant (addAllocationShares t)
              (fun m : NestedMap =>
                 forall k inner, Js.get k m = Some inner
                                 -> NoDup (Js.keys inner))
              _ _ _ _ Pm Et).
    intros m1 a m2 P1. unfold addAllocationShares.
    destruct (Js.get (TransactionAllocation.member_id a) m1) as [inner0|] eqn:G;
      [|discriminate].
    intro E2. injection E2 as <-. intros k inner.
    destruct (string_dec k (TransactionAllocation.member_id a)) as [->|Nk].
    + rewrite get_set_same. intro H. injection H as <-.
      apply keys_set_NoDup. now apply (P1 _ _ G).
    + rewrite get_set_other by exact Nk. apply P1.
  - intros k inner G.
    apply initial_sharesMap_empty in G; [subst; constructor|].
    intros k' inner'. discriminate.
Qed.

Lemma totalSharesPerStock_get (sm : NestedMap) (stocks : list Stock.t)
    (acc : Js.Map Q) (s : string) :
  Js.get s (fold_left (setTotalShares sm) stocks acc)
  = if existsb (fun st => String.eqb s (Stock.id st)) stocks
    then Some (fold_left (fun totalShares '(_, stockMap) =>
                            totalShares + sharesOf s stockMap) sm 0)
    else Js.get s acc.
Proof.
  revert acc. induction stocks as [|st stocks IH]; intro acc; simpl;
    [reflexivity|].
  rewrite IH. destruct (existsb _ stocks); simpl.
  - now rewrite orb_true_r.
  - rewrite orb_false_r. unfold setTotalShares.
    destruct (String.eqb s (Stock.id st)) eqn:E.
    + apply String.eqb_eq in E. subst s. now rewrite get_set_same.
    + apply String.eqb_neq in E. now rewrite get_set_other.
Qed.

Lemma setOwnership_loop (tsp : Js.Map Q) (k' : string) (stockMap : Js.Map Q)
    (om : OwnershipMap) :
  NoDup (Js.keys stockMap) -> In k' (Js.keys om) ->
  exists om',
    Js.forEach (setOwnership tsp k') stockMap om = Js.Return om'
    /\ Js.keys om' = Js.keys om
    /\ forall k s,
         nestedGet om' k s
         = if String.eqb k k'
           then match Js.get s stockMap with
                | Some sh => Some (percentageOfTotal tsp s sh)
                | None => nestedGet om k s
                end
           else nestedGet om k s.
Proof.
  revert om. induction stockMap as [|[s1 sh1] rest IH]; intros om N Hk.
  - exists om. split; [reflexivity|]. split; [reflexivity|].
    intros k s. simpl. now destruct (String.eqb k k').
  - inversion N as [|? ? Hn N']; subst.
    destruct (proj2 (get_Some_In _ _) Hk) as [inner G].
    cbn [Js.forEach]. unfold setOwnership at 1. rewrite G.
    cbn [Js.bind].
    fold (percentageOfTotal tsp s1 sh1).
    set (om1 := Js.set k' (Js.set s1 (percentageOfTotal tsp s1 sh1) inner) om).
    assert (K1 : Js.keys om1 = Js.keys om) by now apply keys_set_present.
    destruct (IH om1 N') as [om' [E [K H]]]; [now rewrite K1|].
    exists om'. split; [exact E|]. split; [congruence|].
    intros k s. rewrite H. subst om1.
    rewrite (nestedGet_update om k' s1 inner _ k s G).
    destruct (String.eqb k k') eqn:Ek; [|reflexivity].
    apply String.eqb_eq in Ek. subst k. cbn [Js.get].
    destruct (String.eqb s s1) eqn:Es.
    + apply String.eqb_eq in Es. subst s.
      rewrite (proj2 (get_None_notIn s1 rest) Hn). reflexivity.
    + destruct (Js.get s rest); [reflexivity|].
      unfold nestedGet. now rewrite G.
Qed.

Lemma ownership_loop_all (tsp : Js.Map Q) (sm : NestedMap) (om : OwnershipMap) :
  NoDup (Js.keys sm) ->
  (forall k inner, In (k, inner) sm -> NoDup (Js.keys inner)) ->
  (forall k, In k (Js.keys sm) -> In k (Js.keys om)) ->
  exists om',
    Js.forEach (fun ownershipMap '(memberId, stockMap) =>
                  Js.forEach (setOwnership tsp memberId) stockMap ownershipMap)
               sm om = Js.Return om'
    /\ Js.keys om' = Js.keys om
    /\ forall k s,
         nestedGet om' k s
         = match Js.get k sm with
           | Some stockMap =>
               match Js.get s stockMap with
               | Some sh => Some (percentageOfTotal tsp s sh)
               | None => nestedGet om k s
               end
           | None => nestedGet om k s
           end.
Proof.
  revert om. induction sm as [|[k1 sm1] rest IH]; intros om N I Hk.
  - exists om. auto.
  - inversion N as [|? ? Hn N']; subst.
    destruct (setOwnership_loop tsp k1 sm1 om) as [om1 [E1 [K1 H1]]].
    { apply (I k1). now left. }
    { apply Hk. now left. }
    cbn [Js.forEach]. rewrite E1. cbn [Js.bind].
    destruct (IH om1 N') as [om' [E [K H]]].
    { intros k inner Hin. apply (I k). now right. }
    { intros k Hin. rewrite K1. apply Hk. now right. }
    exists om'. split; [exact E|]. split; [congruence|].
    intros k s. rewrite H, H1. cbn [Js.get].
    destruct (String.eqb k k1) eqn:Ek.
    + apply String.eqb_eq in Ek. subst k.
      now rewrite (proj2 (get_None_notIn k1 rest) Hn).
    + reflexivity.
Qed.

Lemma initial_ownershipMap (sm : NestedMap) (acc : OwnershipMap) :
  let om := fold_left (fun ownershipMap '(memberId, _) =>
                         Js.set memberId [] ownershipMap) sm acc in
  (forall k, In k (Js.keys om) <-> In k (Js.keys acc) \/ In k (Js.keys sm))
  /\ ((forall k inner, Js.get k acc = Some inner -> inner = []) ->
      forall k inner, Js.get k om = Some inner -> inner = []).
Proof.
  revert acc. induction sm as [|[k1 sm1] rest IH]; intro acc; simpl.
  - split; [intro k; tauto|auto].
  - destruct (IH (Js.set k1 [] acc)) as [I1 I2]. split.
    + intro k. rewrite I1, keys_set_In.
      split; [intros [[->|?]|?]|intros [?|[<-|?]]]; auto.
    + intros H. apply I2. intros k inner.
      destruct (string_dec k k1) as [->|Nk].
      * rewrite get_set_same. congruence.
      * rewrite get_set_other by exact Nk. apply H.
Qed.

Lemma In_get_entry {V} (m : Js.Map V) (k : string) (v : V) :
  Js.get k m = Some v -> In (k, v) m.
Proof.
  induction m as [|[k' v'] m IH]; simpl; [discriminate|].
  destruct (String.eqb k k') eqn:E.
  - apply String.eqb_eq in E. intro H. injection H as <-. subst. now left.
  - intro H. right. now apply IH.
Qed.

Lemma nestedGet_all_empty {V} (m : Js.Map (Js.Map V)) (k s : string) :
  (forall k inner, Js.get k m = Some inner -> inner = []) ->
  nestedGet m k s = None.
Proof.
  intro H. unfold nestedGet.
  destruct (Js.get k m) as [inner|] eqn:G; [|reflexivity].
  now rewrite (H k inner G).
Qed.

(** What [calculateOwnershipPercentages] returns, entry by entry. *)
Lemma calculateOwnershipPercentages_entries data sm :
  calculateMemberShares data = Js.Return sm ->
  exists om,
    calculateOwnershipPercentages data = Js.Return om
    /\ (forall k, In k (Js.keys om) <-> In k (memberIds data))
    /\ forall k s,
         nestedGet om k s
         = match nestedGet sm k s with
           | Some sh =>
               Some (percentageOfTotal
                       (fold_left (setTotalShares sm) (stocks data) []) s sh)
           | None => None
           end.
Proof.
  intro E.
  destruct (calculateMemberShares_Return_inv data sm E) as [_ [N K]].
  unfold calculateOwnershipPercentages. rewrite E. cbn [Js.bind]. cbv zeta.
  destruct (initial_ownershipMap sm []) as [I1 I2]. cbv zeta in I1, I2.
  match goal with
  | |- context [Js.forEach _ sm ?o] => set (om0 := o) in *
  end.
  destruct (ownership_loop_all
              (fold_left (setTotalShares sm) (stocks data) []) sm om0 N)
    as [om [Eo [Ko H]]].
  - intros k inner Hin.
    apply (memberShares_inner_NoDup data sm E k).
    now apply In_get_NoDup.
  - intros k Hk. apply I1. now right.
  - exists om. split; [exact Eo|]. split.
    + intro k. rewrite Ko. split.
      * intro Hk. apply K. apply (proj1 (I1 k)) in Hk.
        destruct Hk as [[]|Hk]. exact Hk.
      * intro Hk. apply (proj2 (I1 k)). right. now apply K.
    + intros k s. rewrite H. unfold nestedGet at 3.
      assert (Z : nestedGet om0 k s = None).
      { apply nestedGet_all_empty. apply I2.
        intros k' inner'. discriminate. }
      rewrite Z. destruct (Js.get k sm) as [stockMap|]; [|reflexivity].
      now destruct (Js.get s stockMap).
Qed.

Lemma gt0_Qeq (x y : Q) : x == y -> Js.gt0 x = Js.gt0 y.
Proof. intro H. unfold Js.gt0. now rewrite H. Qed.

Lemma equals_Qeq (n : Js.number) (x y : Q) :
  x == y -> Js.equals n x -> Js.equals n y.
Proof.
  intros H. destruct n; simpl; auto. intro E. now rewrite E.
Qed.

(** The total of a security in the table of totals is the sum of the
    members' share counts when the security is listed; an unlisted
    security has no total. *)
Lemma percentageOfTotal_value data sm (s : string) (sh : Q) :
  NoDup (Js.keys sm) ->
  let total := Qsum (map (fun k => nestedGetOrZero sm k s) (Js.keys sm)) in
  let p := percentageOfTotal
             (fold_left (setTotalShares sm) (stocks data) []) s sh in
  if stockListed data s && Js.gt0 total
  then Js.equals p (sh / total * 100)
  else p = Js.Fin 0.
Proof.
  intros N total p. subst p. unfold percentageOfTotal.
  rewrite totalSharesPerStock_get. fold (stockListed data s).
  destruct (stockListed data s); simpl andb; [|reflexivity].
  assert (T : Js.orZero
                (Some (fold_left (fun totalShares '(_, stockMap) =>
                                    totalShares + sharesOf s stockMap) sm 0))
              == total).
  { rewrite orZero_Some, totalShares_loop, shares_by_key by exact N.
    subst total. ring. }
  cbv zeta. rewrite (gt0_Qeq _ _ T).
  destruct (Js.gt0 total) eqn:G; [|reflexivity].
  apply gt0_true in G.
  assert (NZ : ~ Js.orZero
                (Some (fold_left (fun totalShares '(_, stockMap) =>
                                    totalShares + sharesOf s stockMap) sm 0))
               == 0).
  { rewrite T. now apply Qlt_0_neq. }
  rewrite percent_finite by exact NZ. simpl. rewrite T. reflexivity.
Qed.

(** [calculateOwnershipPercentages] returns exactly when
    [calculateMemberShares] does.  Its map has the member ids as keys and,
    for each member, an entry for exactly the securities of the member's
    share map: the member's shares divided by the sum of the members'
    share counts times 100 when the security is one of the snapshot's and
    that sum is strictly positive, and 0 otherwise (also for a security
    that is traded but not among the snapshot's securities). *)
Theorem calculateOwnershipPercentages_of_total (data : CalculationData) :
  (memberRefsResolve data = false ->
   calculateOwnershipPercentages data = Js.Throw Js.TypeError)
  /\ (memberRefsResolve data = true ->
      exists sm om,
        calculateMemberShares data = Js.Return sm
        /\ calculateOwnershipPercentages data = Js.Return om
        /\ (forall k, In k (Js.keys om) <-> In k (memberIds data))
        /\ forall k s,
             match nestedGet sm k s with
             | Some sh =>
                 exists p,
                   nestedGet om k s = Some p
                   /\ let total :=
                        Qsum (map (fun k' => nestedGetOrZero sm k' s)
                                  (Js.keys sm)) in
                      if stockListed data s && Js.gt0 total
                      then Js.equals p (sh / total * 100)
                      else p = Js.Fin 0
             | None => nestedGet om k s = None
             end).
Proof.
  split.
  - intro R. unfold calculateOwnershipPercentages.
    now rewrite (calculateMemberShares_throws data R).
  - intro R.
    destruct (calculateMemberShares_returns data R) as [sm [E [N _]]].
    destruct (calculateOwnershipPercentages_entries data sm E)
      as [om [Eo [K H]]].
    exists sm, om. split; [exact E|]. split; [exact Eo|]. split; [exact K|].
    intros k s. rewrite H.
    destruct (nestedGet sm k s) as [sh|]; [|reflexivity].
    eexists. split; [reflexivity|]. now apply percentageOfTotal_value.
Qed.

Lemma calculateOwnershipPercentages_of_total_witness :
  calculateOwnershipPercentages Example.unknownMember = Js.Throw Js.TypeError
  /\ exists om p,
       calculateOwnershipPercentages Example.unknownSecurity = Js.Return om
       /\ nestedGet om "A" "Q" = Some p /\ p = Js.Fin 0.
Proof.
  split.
  - apply (calculateOwnershipPercentages_of_total Example.unknownMember).
    reflexivity.
  - destruct (proj2 (calculateOwnershipPercentages_of_total
                       Example.unknownSecurity) eq_refl)
      as [sm [om [Es [Eo [_ H]]]]].
    specialize (H "A"%string "Q"%string).
    vm_compute in Es. inversion Es. subst sm. clear Es.
    cbv beta iota zeta in H. simpl nestedGet in H.
    destruct H as [p [Hp V]]. exists om, p. auto.
Defined.



(** ** calculateStockWithOwnership: value, cost basis and gain *)

Lemma ownership_loop_totals (stock : Stock.t) (sm cb : NestedMap)
    (ms : list FamilyMember.t) (ts tc : Q) (mo : list MemberOwnership.t) :
  let held := filter (fun m => Js.gt0 (nestedGetOrZero sm (FamilyMember.id m)
                                                       (Stock.id stock))) ms in
  exists ts' tc',
    fold_left (addMemberOwnership stock sm cb) ms (ts, tc, mo)
    = (ts', tc', mo ++ map (ownershipEntry stock sm) held)
    /\ ts' == ts + Qsum (map (fun m => nestedGetOrZero sm (FamilyMember.id m)
                                                      (Stock.id stock)) held)
    /\ tc' == tc + Qsum (map (fun m => nestedGetOrZero cb (FamilyMember.id m)
                                                      (Stock.id stock)) held).
Proof.
  cbv zeta. revert ts tc mo.
  induction ms as [|m ms IH]; intros ts tc mo.
  - exists ts, tc. simpl. rewrite app_nil_r. repeat split; ring.
  - cbn [fold_left filter]. unfold addMemberOwnership at 2.
    destruct (Js.gt0 (nestedGetOrZero sm (FamilyMember.id m) (Stock.id stock)))
      eqn:G.
    + match goal with
      | |- context [fold_left _ ms (?a, ?b, ?c)] =>
          destruct (IH a b c) as [ts' [tc' [E [T C]]]]
      end.
      exists ts', tc'. rewrite E. split; [|split].
      * rewrite <- app_assoc. reflexivity.
      * rewrite T. simpl. ring.
      * rewrite C. simpl. ring.
    + destruct (IH ts tc mo) as [ts' [tc' [E [T C]]]].
      exists ts', tc'. auto.
Qed.

(** The summary of a security keeps the security's record; the value of
    each listed member is the member's shares times the price (0 for an
    unknown price) and the current value is their sum; the cost basis is
    the sum of the cost bases of the listed members only; the gain is the
    difference of the two and its percentage is a finite number, 0 when the
    cost basis is not strictly positive. *)
Theorem calculateStockWithOwnership_totals
    (stock : Stock.t) (data : CalculationData) :
  memberRefsResolve data = true ->
  exists sm cb r,
    calculateMemberShares data = Js.Return sm
    /\ calculateCostBasis data = Js.Return cb
    /\ calculateStockWithOwnership stock data = Js.Return r
    /\ StockWithOwnership.stock r = stock
    /\ Forall (fun mo =>
                 MemberOwnership.value mo
                 = MemberOwnership.shares mo
                   * match Stock.current_price stock with
                     | Some p => if Qeq_bool p 0 then 0 else p
                     | None => 0
                     end)
              (StockWithOwnership.memberOwnership r)
    /\ StockWithOwnership.currentValue r
       == Qsum (map MemberOwnership.value (StockWithOwnership.memberOwnership r))
    /\ StockWithOwnership.costBasis r
       == Qsum (map (fun m => nestedGetOrZero cb (FamilyMember.id m)
                                              (Stock.id stock))
                    (filter (fun m => Js.gt0 (nestedGetOrZero sm
                                                (FamilyMember.id m)
                                                (Stock.id stock)))
                            (members data)))
    /\ StockWithOwnership.gainLoss r
       = StockWithOwnership.currentValue r - StockWithOwnership.costBasis r
    /\ Js.finite (StockWithOwnership.gainLossPercentage r) = true
    /\ (StockWithOwnership.costBasis r <= 0 ->
        StockWithOwnership.gainLossPercentage r = Js.Fin 0).
Proof.
  intro R.
  destruct (calculateMemberShares_returns data R) as [sm [E _]].
  destruct (calculateCostBasis_returns data) as [cb Ec].
  destruct (ownership_loop_totals stock sm cb (members data) 0 0 [])
    as [ts [tc [L [T C]]]].
  exists sm, cb. unfold calculateStockWithOwnership. rewrite E, Ec.
  cbn [Js.bind]. rewrite L. cbn [app].
  eexists. split; [reflexivity|]. split; [reflexivity|].
  split; [reflexivity|]. cbn [StockWithOwnership.stock
    StockWithOwnership.memberOwnership StockWithOwnership.currentValue
    StockWithOwnership.costBasis StockWithOwnership.gainLoss
    StockWithOwnership.gainLossPercentage].
  split; [reflexivity|]. split; [|split; [|split; [|split; [|split]]]].
  - apply Forall_forall. intros mo Hmo. rewrite !in_map_iff in Hmo.
    destruct Hmo as [mo0 [<- Hmo0]]. apply in_map_iff in Hmo0.
    destruct Hmo0 as [m [<- _]]. reflexivity.
  - rewrite !map_map. cbn [MemberOwnership.value
      MemberOwnership.setPercentage ownershipEntry].
    rewrite (Qsum_scale
               (fun m => nestedGetOrZero sm (FamilyMember.id m) (Stock.id stock))
               (Js.orZero (Stock.current_price stock))).
    rewrite T. ring.
  - rewrite C. ring.
  - reflexivity.
  - apply guarded_percent_finite.
  - intro P. now rewrite (proj2 (gt0_false _) P).
Qed.

Lemma calculateStockWithOwnership_totals_witness :
  exists r,
    calculateStockWithOwnership (Example.stock "X" (Some 120))
      Example.shortSeller = Js.Return r
    /\ StockWithOwnership.costBasis r == 1000
    /\ Js.finite (StockWithOwnership.gainLossPercentage r) = true.
Proof.
  destruct (calculateStockWithOwnership_totals (Example.stock "X" (Some 120))
              Example.shortSeller eq_refl)
    as [sm [cb [r [Es [Ec [Er [_ [_ [_ [C [_ [F _]]]]]]]]]]]].
  vm_compute in Es. inversion Es. subst sm. clear Es.
  vm_compute in Ec. inversion Ec. subst cb. clear Ec.
  exists r. split; [exact Er|]. split; [|exact F].
  rewrite C. vm_compute. reflexivity.
Defined.

(** ** The cash of the portfolio, read off the ledger *)

Lemma Qsum_indicator_known (K : list string) (x : string) (v : Q) :
  NoDup K ->
  Qsum (map (fun k => if String.eqb x k then v else 0) K)
  == (if existsb (String.eqb x) K then v else 0).
Proof.
  intro N. destruct (existsb (String.eqb x) K) eqn:E.
  - apply Qsum_indicator; [exact N|].
    apply existsb_exists in E. destruct E as [k [Hk Ek]].
    apply String.eqb_eq in Ek. now subst.
  - apply Qsum_zero. intros k Hk.
    destruct (String.eqb x k) eqn:Ek; [|reflexivity].
    assert (existsb (String.eqb x) K = true)
      by (apply existsb_exists; eauto).
    congruence.
Qed.

(** Summing, over distinct member ids, the amounts of the items of each
    member counts every item of a known member once. *)
Lemma Qsum_by_member {A} (memberOf : A -> string) (amount : A -> Q)
    (K : list string) (items : list A) :
  NoDup K ->
  Qsum (map (fun k => Qsum (map amount
                              (filter (fun x => String.eqb (memberOf x) k)
                                      items))) K)
  == Qsum (map amount
               (filter (fun x => existsb (String.eqb (memberOf x)) K) items)).
Proof.
  intro N.
  rewrite (Qsum_ext _ (fun k => Qsum (map (fun x =>
             if String.eqb (memberOf x) k then amount x else 0) items)))
    by (intros k _; symmetry; apply Qsum_if_filter).
  rewrite (Qsum_exchange
             (fun k x => if String.eqb (memberOf x) k then amount x else 0)).
  rewrite <- Qsum_if_filter. apply Qsum_ext. intros x _.
  now apply Qsum_indicator_known.
Qed.

Lemma Qsum_Forall2 {A B} (R : A -> B -> Prop) (f : A -> Q) (g : B -> Q)
    (la : list A) (lb : list B) :
  (forall a b, R a b -> g b == f a) ->
  Forall2 R la lb -> Qsum (map g lb) == Qsum (map f la).
Proof.
  intros H F. induction F as [|a b la lb Hab _ IH]; simpl; [reflexivity|].
  now rewrite (H a b Hab), IH.
Qed.

Lemma Qsum_minus_plus {A} (f g h : A -> Q) (l : list A) :
  Qsum (map (fun x => f x - g x + h x) l)
  == Qsum (map f l) - Qsum (map g l) + Qsum (map h l).
Proof.
  induction l as [|x l IH]; simpl; [ring|]. rewrite IH. ring.
Qed.

(** With distinct member ids, the totalCash of the summary is the sum of
    the contributions of the members of the snapshot, minus the sum of
    their allocation amounts on purchases, plus the sum of those on sales:
    contributions and allocations that name no member of the snapshot
    count for nothing, the others once. *)
Theorem totalCash_of_ledger (data : CalculationData) :
  memberRefsResolve data = true ->
  NoDup (memberIds data) ->
  exists s,
    calculatePortfolioSummary data = Js.Return s
    /\ PortfolioSummary.totalCash s
       == Qsum (map Contribution.amount
                    (filter (fun c => existsb
                                        (String.eqb (Contribution.member_id c))
                                        (memberIds data))
                            (contributions data)))
          - Qsum (map TransactionAllocation.amount
                      (filter (fun a => memberKnown (memberIds data) a
                                        && onTransactionOfType data buy a)
                              (allocations data)))
          + Qsum (map TransactionAllocation.amount
                      (filter (fun a => memberKnown (memberIds data) a
                                        && onTransactionOfType data sell a)
                              (allocations data))).
Proof.
  intros R N.
  destruct (calculatePortfolioSummary_returns data R)
    as [sm [cb [rows [tc [_ [_ [F [T E]]]]]]]].
  exists (totalsAndOwnership rows tc). split; [exact E|].
  change (PortfolioSummary.totalCash (totalsAndOwnership rows tc)) with tc.
  rewrite T.
  assert (H : forall m row,
             isRowOf data (calculateMemberCash data) sm cb m row ->
             MemberPortfolioSummary.availableCash row
             == contributionsOf data (FamilyMember.id m)
                - allocatedOf data buy (FamilyMember.id m)
                + allocatedOf data sell (FamilyMember.id m)).
  { intros m row [_ [[cash [G [A _]]] _]]. rewrite A.
    destruct (in_dec string_dec (FamilyMember.id m) (memberIds data))
      as [I|I].
    - destruct (calculateMemberCash_get data (FamilyMember.id m) I)
        as [m' [_ [Em G']]].
      rewrite G in G'. injection G' as ->.
      destruct (memberCashPool_figures data m') as [_ [F2 [F3 [F4 F5]]]].
      cbv zeta in F2, F3, F4, F5. rewrite F5, F2, F3, F4, Em. reflexivity.
    - pose proof (proj2 (cashMap_get data (members data) []
                           (FamilyMember.id m)) I) as G'.
      unfold calculateMemberCash in G. rewrite G in G'. discriminate. }
  rewrite (Qsum_Forall2 _ _ _ _ _ H F).
  rewrite Qsum_minus_plus.
  rewrite <- !(map_map FamilyMember.id
                 (fun k => contributionsOf data k)).
  rewrite <- !(map_map FamilyMember.id (fun k => allocatedOf data buy k)).
  rewrite <- !(map_map FamilyMember.id (fun k => allocatedOf data sell k)).
  fold (memberIds data).
  unfold contributionsOf, allocatedOf.
  rewrite (Qsum_by_member Contribution.member_id Contribution.amount
             (memberIds data) (contributions data) N).
  assert (A : forall ty,
    Qsum (map (fun k => Qsum (map TransactionAllocation.amount
                 (filter (fun a =>
                            String.eqb (TransactionAllocation.member_id a) k
                            && onTransactionOfType data ty a)
                         (allocations data)))) (memberIds data))
    == Qsum (map TransactionAllocation.amount
                 (filter (fun a => memberKnown (memberIds data) a
                                   && onTransactionOfType data ty a)
                         (allocations data)))).
  { intro ty.
    rewrite (Qsum_ext _ (fun k => Qsum (map
               (fun a => if onTransactionOfType data ty a
                         then TransactionAllocation.amount a else 0)
               (filter (fun a => String.eqb (TransactionAllocation.member_id a) k)
                       (allocations data))))).
    2:{ intros k _. rewrite Qsum_if_filter.
        assert (FF : forall l : list TransactionAllocation.t,
                  filter (fun a => String.eqb (TransactionAllocation.member_id a) k
                                   && onTransactionOfType data ty a) l
                  = filter (onTransactionOfType data ty)
                      (filter (fun a => String.eqb
                                          (TransactionAllocation.member_id a) k) l)).
        { induction l as [|a l IH]; simpl; [reflexivity|].
          destruct (String.eqb _ k); simpl; [|exact IH].
          destruct (onTransactionOfType data ty a); simpl; now rewrite IH. }
        now rewrite FF. }
    rewrite (Qsum_by_member TransactionAllocation.member_id
               (fun a => if onTransactionOfType data ty a
                         then TransactionAllocation.amount a else 0)
               (memberIds data) (allocations data) N).
    rewrite Qsum_if_filter.
    assert (FF : forall l : list TransactionAllocation.t,
              filter (onTransactionOfType data ty)
                (filter (fun a => existsb
                                    (String.eqb (TransactionAllocation.member_id a))
                                    (memberIds data)) l)
              = filter (fun a => memberKnown (memberIds data) a
                                 && onTransactionOfType data ty a) l).
    { induction l as [|a l IH]; simpl; [reflexivity|]. unfold memberKnown at 1.
      destruct (existsb _ (memberIds data)); simpl; [|exact IH].
      destruct (onTransactionOfType data ty a); simpl; now rewrite IH. }
    now rewrite FF. }
  rewrite !A. reflexivity.
Qed.

Lemma totalCash_of_ledger_witness :
  exists s,
    calculatePortfolioSummary Example.scenario = Js.Return s
    /\ PortfolioSummary.totalCash s == 1000.
Proof.
  destruct (totalCash_of_ledger Example.scenario eq_refl) as [s [E T]].
  - repeat constructor; simpl; intuition discriminate.
  - exists s. split; [exact E|]. rewrite T. vm_compute. reflexivity.
Defined.

(** ** A row of the member breakdown, read off the ledger *)

(** Each row of the member breakdown is, for its member: the available
    cash of [calculateMemberCash]; as stock value the sum over the priced
    securities of the snapshot of the member's net shares times the price;
    as cost basis the sum over the securities of the snapshot of the
    member's net cost; their sum and difference as total value and gain. *)
Theorem member_rows_of_ledger (data : CalculationData) :
  memberRefsResolve data = true ->
  exists s,
    calculatePortfolioSummary data = Js.Return s
    /\ Forall2
         (fun m row =>
            let id := FamilyMember.id m in
            MemberPortfolioSummary.memberId row = id
            /\ MemberPortfolioSummary.availableCash row
               == contributionsOf data id - allocatedOf data buy id
                  + allocatedOf data sell id
            /\ MemberPortfolioSummary.currentStockValue row
               == Qsum (map (fun st =>
                               netShares data id (Stock.id st)
                               * match Stock.current_price st with
                                 | Some p => p
                                 | None => 0
                                 end)
                            (filter priceKnown (stocks data)))
            /\ MemberPortfolioSummary.costBasis row
               == Qsum (map (fun st => netCost data id (Stock.id st))
                            (stocks data))
            /\ MemberPortfolioSummary.totalValue row
               = MemberPortfolioSummary.currentStockValue row
                 + MemberPortfolioSummary.availableCash row
            /\ MemberPortfolioSummary.gainLoss row
               = MemberPortfolioSummary.currentStockValue row
                 - MemberPortfolioSummary.costBasis row)
         (members data) (PortfolioSummary.memberBreakdown s).
Proof.
  intro R.
  destruct (calculatePortfolioSummary_returns data R)
    as [sm [cb [rows [tc [Es [Ec [F [_ E]]]]]]]].
  exists (totalsAndOwnership rows tc). split; [exact E|].
  unfold totalsAndOwnership. cbn [PortfolioSummary.memberBreakdown].
  apply (Forall2_map_right
           (isRowOf data (calculateMemberCash data) sm cb)); [|exact F].
  intros m row [H1 [[cash [G [A _]]] [H3 [H4 [H5 [H6 _]]]]]]. cbv zeta.
  unfold MemberPortfolioSummary.setOwnershipPercentage.
  cbn [MemberPortfolioSummary.memberId MemberPortfolioSummary.availableCash
       MemberPortfolioSummary.currentStockValue MemberPortfolioSummary.costBasis
       MemberPortfolioSummary.totalValue MemberPortfolioSummary.gainLoss].
  split; [exact H1|]. split; [|split; [|split; [|split; assumption]]].
  - rewrite A.
    destruct (in_dec string_dec (FamilyMember.id m) (memberIds data))
      as [I|I].
    + destruct (calculateMemberCash_get data (FamilyMember.id m) I)
        as [m' [_ [Em G']]].
      rewrite G in G'. injection G' as ->.
      destruct (memberCashPool_figures data m') as [_ [F2 [F3 [F4 F5]]]].
      cbv zeta in F2, F3, F4, F5. rewrite F5, F2, F3, F4, Em. reflexivity.
    + pose proof (proj2 (cashMap_get data (members data) []
                           (FamilyMember.id m)) I) as G'.
      unfold calculateMemberCash in G. rewrite G in G'. discriminate.
  - rewrite H3. unfold stockValueOf. apply Qsum_ext. intros st _.
    now rewrite (memberShares_closed_form data sm _ _ Es).
  - rewrite H4. unfold costBasisOf. apply Qsum_ext. intros st _.
    now apply costBasis_closed_form.
Qed.

Lemma member_rows_of_ledger_witness :
  exists s row,
    calculatePortfolioSummary Example.overdrawn = Js.Return s
    /\ PortfolioSummary.memberBreakdown s = [row]
    /\ MemberPortfolioSummary.availableCash row == -100
    /\ MemberPortfolioSummary.costBasis row == 100.
Proof.
  destruct (member_rows_of_ledger Example.overdrawn eq_refl) as [s [E F]].
  inversion F as [|m row ms rows [_ [A [_ [C _]]]] F' M B]. subst.
  inversion F'. subst.
  exists s, row. split; [exact E|]. split; [auto|]. split.
  - rewrite A. vm_compute. reflexivity.
  - rewrite C. vm_compute. reflexivity.
Defined.

(** ** The order of the ledger does not matter *)

Lemma Qsum_Permutation (l l' : list Q) : Permutation l l' -> Qsum l == Qsum l'.
Proof.
  induction 1 as [|x l l' _ IH|x y l|l l1 l2 _ IH1 _ IH2]; simpl.
  - reflexivity.
  - now rewrite IH.
  - ring.
  - now rewrite IH1.
Qed.

Lemma filter_Permutation {A} (p : A -> bool) (l l' : list A) :
  Permutation l l' -> Permutation (filter p l) (filter p l').
Proof.
  induction 1 as [|x l l' _ IH|x y l|l l1 l2 _ IH1 _ IH2]; simpl.
  - constructor.
  - destruct (p x); [now constructor|exact IH].
  - destruct (p x), (p y); try reflexivity. apply perm_swap.
  - now transitivity (filter p l1).
Qed.

Lemma Qsum_map_filter_Permutation {A} (f : A -> Q) (p : A -> bool)
    (l l' : list A) :
  Permutation l l' ->
  Qsum (map f (filter p l)) == Qsum (map f (filter p l')).
Proof.
  intro P. apply Qsum_Permutation, Permutation_map.
  now apply filter_Permutation.
Qed.

Lemma memberRefsResolve_iff data :
  memberRefsResolve data = true
  <-> forall t a, In t (transactions data) -> In a (allocations data) ->
        TransactionAllocation.transaction_id a = Transaction.id t ->
        In (TransactionAllocation.member_id a) (memberIds data).
Proof.
  unfold memberRefsResolve, transactionResolved. rewrite forallb_forall.
  split.
  - intros H t a Ht Ha E. specialize (H t Ht). rewrite forallb_forall in H.
    apply memberKnown_In, H, filter_In. split; [exact Ha|].
    now apply String.eqb_eq.
  - intros H t Ht. apply forallb_forall. intros a Ha.
    apply filter_In in Ha. destruct Ha as [Ha E]. apply String.eqb_eq in E.
    apply memberKnown_In. now apply (H t a).
Qed.

(** With distinct ids the transaction found for an id does not depend on
    the order of the transactions. *)
Lemma find_Permutation (ts ts' : list Transaction.t) (x : string) :
  NoDup (map Transaction.id ts) -> Permutation ts ts' ->
  find (fun t => String.eqb (Transaction.id t) x) ts
  = find (fun t => String.eqb (Transaction.id t) x) ts'.
Proof.
  intros N P.
  assert (N' : NoDup (map Transaction.id ts'))
    by (eapply Permutation_NoDup; [apply Permutation_map; exact P|exact N]).
  assert (U : forall l t, NoDup (map Transaction.id l) -> In t l ->
                Transaction.id t = x ->
                find (fun t => String.eqb (Transaction.id t) x) l = Some t).
  { clear. induction l as [|t0 l IH]; intros t Nl Hin Ex; [inversion Hin|].
    simpl. inversion Nl as [|? ? Hn Nl']; subst.
    destruct Hin as [->|Hin]; [now rewrite String.eqb_refl|].
    destruct (String.eqb (Transaction.id t0) (Transaction.id t)) eqn:E.
    - apply String.eqb_eq in E. exfalso. apply Hn. rewrite E.
      now apply in_map.
    - now apply IH. }
  destruct (find _ ts) as [t|] eqn:F.
  - apply find_some in F. destruct F as [Hin Ex]. apply String.eqb_eq in Ex.
    symmetry. apply U; [exact N'| |exact Ex].
    now apply (Permutation_in _ P).
  - symmetry. apply find_None_forall. intros t Ht.
    apply (find_none _ _ F). now apply (Permutation_in _ (Permutation_sym P)).
Qed.

(** Two snapshots that differ only in the order of their transactions and
    of their allocations give every member the same share count and the
    same cost basis of every security, when the transaction ids are
    distinct. *)
Theorem ledger_order_irrelevant (data data' : CalculationData) :
  members data' = members data ->
  Permutation (transactions data) (transactions data') ->
  Permutation (allocations data) (allocations data') ->
  NoDup (map Transaction.id (transactions data)) ->
  memberRefsResolve data = true ->
  exists sm sm' cb cb',
    calculateMemberShares data = Js.Return sm
    /\ calculateMemberShares data' = Js.Return sm'
    /\ calculateCostBasis data = Js.Return cb
    /\ calculateCostBasis data' = Js.Return cb'
    /\ forall memberId stockId,
         nestedGetOrZero sm' memberId stockId
         == nestedGetOrZero sm memberId stockId
         /\ nestedGetOrZero cb' memberId stockId
            == nestedGetOrZero cb memberId stockId.
Proof.
  intros M PT PA N R.
  assert (R' : memberRefsResolve data' = true).
  { apply memberRefsResolve_iff. intros t a Ht Ha E.
    unfold memberIds. rewrite M.
    apply (proj1 (memberRefsResolve_iff data) R t a); [| |exact E].
    - now apply (Permutation_in _ (Permutation_sym PT)).
    - now apply (Permutation_in _ (Permutation_sym PA)). }
  destruct (calculateMemberShares_returns data R) as [sm [E _]].
  destruct (calculateMemberShares_returns data' R') as [sm' [E' _]].
  destruct (calculateCostBasis_returns data) as [cb Ec].
  destruct (calculateCostBasis_returns data') as [cb' Ec'].
  exists sm, sm', cb, cb'. repeat (split; [assumption|]).
  intros k s. split.
  - rewrite (memberShares_closed_form data sm k s E).
    rewrite (memberShares_closed_form data' sm' k s E').
    unfold netShares.
    rewrite <- (Qsum_map_filter_Permutation _ _ _ _ PT).
    apply Qsum_ext. intros t _. unfold allocationsOf.
    apply Qsum_map_filter_Permutation.
    apply filter_Permutation. now apply Permutation_sym.
  - rewrite (costBasis_closed_form data cb k s Ec).
    rewrite (costBasis_closed_form data' cb' k s Ec').
    unfold netCost.
    rewrite <- (Qsum_map_filter_Permutation _ _ _ _ PA).
    apply Qsum_ext. intros a _. unfold signedCost, transactionOf.
    now rewrite (find_Permutation _ _ _ N PT).
Qed.

Lemma ledger_order_irrelevant_witness :
  exists sm',
    calculateMemberShares
      {| members := members Example.shortSeller;
         contributions := contributions Example.shortSeller;
         stocks := stocks Example.shortSeller;
         transactions := rev (transactions Example.shortSeller);
         allocations := rev (allocations Example.shortSeller) |}
    = Js.Return sm'
    /\ nestedGetOrZero sm' "A" "X" == 10
    /\ nestedGetOrZero sm' "B" "X" == -5.
Proof.
  destruct (ledger_order_irrelevant Example.shortSeller
              {| members := members Example.shortSeller;
                 contributions := contributions Example.shortSeller;
                 stocks := stocks Example.shortSeller;
                 transactions := rev (transactions Example.shortSeller);
                 allocations := rev (allocations Example.shortSeller) |})
    as [sm [sm' [cb [cb' [E [E' [_ [_ H]]]]]]]].
  - reflexivity.
  - apply Permutation_rev.
  - apply Permutation_rev.
  - repeat constructor; simpl; intuition discriminate.
  - reflexivity.
  - vm_compute in E. inversion E. subst sm. clear E.
    exists sm'. split; [exact E'|]. split.
    + rewrite (proj1 (H "A"%string "X"%string)). vm_compute. reflexivity.
    + rewrite (proj1 (H "B"%string "X"%string)). vm_compute. reflexivity.
Defined.

(** ** Which entries the share maps have *)

Lemma shareUpdate_fold_None (k s : string) t
    (l : list TransactionAllocation.t) (v : option Q) :
  fold_left (fun v a => shareUpdate k s t a v) l v = None
  <-> v = None
      /\ forall a, In a l ->
           String.eqb (TransactionAllocation.member_id a) k
           && String.eqb (Transaction.stock_id t) s = false.
Proof.
  revert v. induction l as [|a l IH]; intro v; simpl.
  - split; [intro H; split; [exact H|intros a []]|tauto].
  - rewrite IH. unfold shareUpdate at 1.
    destruct (String.eqb (TransactionAllocation.member_id a) k
              && String.eqb (Transaction.stock_id t) s) eqn:E.
    + split; [intros [H _]; discriminate|].
      intros [_ H]. specialize (H a (or_introl eq_refl)). congruence.
    + split.
      * intros [Hv H]. split; [exact Hv|]. intros a' [<-|Ha']; auto.
      * intros [Hv H]. split; [exact Hv|]. intros a' Ha'. apply H. now right.
Qed.

Lemma shareUpdate_replay_None data (k s : string) (ts : list Transaction.t)
    (v : option Q) :
  fold_left (fun v t => fold_left (fun v a => shareUpdate k s t a v)
                                  (allocationsOf data t) v) ts v = None
  <-> v = None
      /\ forall t a, In t ts -> In a (allocationsOf data t) ->
           String.eqb (TransactionAllocation.member_id a) k
           && String.eqb (Transaction.stock_id t) s = false.
Proof.
  revert v. induction ts as [|t ts IH]; intro v; simpl.
  - split; [intro H; split; [exact H|intros t a []]|tauto].
  - rewrite IH, shareUpdate_fold_None. split.
    + intros [[Hv H1] H2]. split; [exact Hv|].
      intros t' a [<-|Ht'] Ha; auto.
    + intros [Hv H]. split; [split; [exact Hv|]|].
      * intros a Ha. apply (H t a); auto.
      * intros t' a Ht' Ha. apply (H t' a); auto.
Qed.

(** The share map of a member has an entry for a security exactly when the
    member has an allocation on a transaction of that security; a position
    that has been sold keeps its entry. *)
Theorem calculateMemberShares_entries (data : CalculationData) :
  memberRefsResolve data = true ->
  exists sm,
    calculateMemberShares data = Js.Return sm
    /\ NoDup (Js.keys sm)
    /\ (forall k, In k (Js.keys sm) <-> In k (memberIds data))
    /\ forall k s,
         nestedGet sm k s = None
         <-> forall t a, In t (transactions data) -> In a (allocations data) ->
               TransactionAllocation.transaction_id a = Transaction.id t ->
               TransactionAllocation.member_id a = k ->
               Transaction.stock_id t <> s.
Proof.
  intro R. destruct (calculateMemberShares_returns data R) as [sm [E [N K]]].
  exists sm. split; [exact E|]. split; [exact N|]. split; [exact K|].
  intros k s. rewrite (memberShares_replay data sm k s E).
  rewrite shareUpdate_replay_None. split.
  - intros [_ H] t a Ht Ha Et Ek Es.
    assert (Hin : In a (allocationsOf data t)).
    { apply filter_In. split; [exact Ha|]. now apply String.eqb_eq. }
    specialize (H t a Ht Hin). subst k s.
    now rewrite !String.eqb_refl in H.
  - intro H. split.
    + apply nestedGet_all_empty. apply initial_sharesMap_empty.
      intros k' inner'. discriminate.
    + intros t a Ht Ha. apply filter_In in Ha. destruct Ha as [Ha Et].
      apply String.eqb_eq in Et.
      destruct (String.eqb (TransactionAllocation.member_id a) k) eqn:Ek;
        [|reflexivity].
      apply String.eqb_eq in Ek. simpl. apply String.eqb_neq.
      now apply (H t a).
Qed.

Lemma calculateMemberShares_entries_witness :
  exists sm,
    calculateMemberShares Example.withIdleMember = Js.Return sm
    /\ In "C"%string (Js.keys sm)
    /\ nestedGet sm "C" "X" = None.
Proof.
  destruct (calculateMemberShares_entries Example.withIdleMember eq_refl)
    as [sm [E [_ [K H]]]].
  exists sm. split; [exact E|]. split.
  - apply K. simpl. auto.
  - apply H. intros t a [<-|[]] [<-|[<-|[]]] _; discriminate.
Defined.

(** ** Proposing the sale of a security that was never traded *)



(** ** Gain percentages *)

Lemma guarded_percent_value (a d : Q) :
  let p := if Js.gt0 d then Js.times (Js.div a d) 100 else Js.Fin 0 in
  (0 < d -> Js.equals p (a / d * 100)) /\ (d <= 0 -> p = Js.Fin 0).
Proof.
  cbv zeta. split; intro H.
  - rewrite (proj2 (gt0_true _) H).
    rewrite percent_finite by now apply Qlt_0_neq. simpl. reflexivity.
  - now rewrite (proj2 (gt0_false _) H).
Qed.

(** The gain percentage of a member, and that of the portfolio, is the
    gain divided by the cost basis times 100 when the cost basis is
    strictly positive, and the finite number 0 when it is zero or
    negative. *)
Theorem gainLossPercentage_of_cost_basis (data : CalculationData) :
  memberRefsResolve data = true ->
  exists s,
    calculatePortfolioSummary data = Js.Return s
    /\ (0 < PortfolioSummary.totalCostBasis s ->
        Js.equals (PortfolioSummary.totalGainLossPercentage s)
                  (PortfolioSummary.totalGainLoss s
                   / PortfolioSummary.totalCostBasis s * 100))
    /\ (PortfolioSummary.totalCostBasis s <= 0 ->
        PortfolioSummary.totalGainLossPercentage s = Js.Fin 0)
    /\ Forall
         (fun row =>
            (0 < MemberPortfolioSummary.costBasis row ->
             Js.equals (MemberPortfolioSummary.gainLossPercentage row)
                       (MemberPortfolioSummary.gainLoss row
                        / MemberPortfolioSummary.costBasis row * 100))
            /\ (MemberPortfolioSummary.costBasis row <= 0 ->
                MemberPortfolioSummary.gainLossPercentage row = Js.Fin 0))
         (PortfolioSummary.memberBreakdown s).
Proof.
  intro R.
  destruct (calculatePortfolioSummary_returns data R)
    as [sm [cb [rows [tc [_ [_ [F [_ E]]]]]]]].
  exists (totalsAndOwnership rows tc). split; [exact E|].
  unfold totalsAndOwnership.
  cbn [PortfolioSummary.totalCostBasis PortfolioSummary.totalGainLoss
       PortfolioSummary.totalGainLossPercentage
       PortfolioSummary.memberBreakdown].
  split; [apply guarded_percent_value|].
  split; [apply guarded_percent_value|].
  apply Forall_forall. intros row Hrow. apply in_map_iff in Hrow.
  destruct Hrow as [row0 [<- Hrow0]].
  unfold MemberPortfolioSummary.setOwnershipPercentage.
  cbn [MemberPortfolioSummary.costBasis MemberPortfolioSummary.gainLoss
       MemberPortfolioSummary.gainLossPercentage].
  assert (G : exists m, isRowOf data (calculateMemberCash data) sm cb m row0).
  { clear -F Hrow0. induction F as [|m r ms rs Hr _ IH]; [inversion Hrow0|].
    destruct Hrow0 as [->|Hin]; eauto. }
  destruct G as [m [_ [_ [_ [_ [_ [_ P]]]]]]]. rewrite P.
  apply guarded_percent_value.
Qed.

Lemma gainLossPercentage_of_cost_basis_witness :
  exists s,
    calculatePortfolioSummary Example.scenario = Js.Return s
    /\ Js.equals (PortfolioSummary.totalGainLossPercentage s) 20.
Proof.
  destruct (gainLossPercentage_of_cost_basis Example.scenario eq_refl)
    as [s [E [P _]]].
  exists s. split; [exact E|].
  vm_compute in E. inversion E. subst s.
  eapply equals_Qeq; [|apply P; reflexivity].
  vm_compute. reflexivity.
Defined.
